(** * AgentShield / SOLPRISM: reasoning commitments (src/src/solprism.ts)

    A shallow embedding of the trace builders, the trace hash and the
    commitment manager of solprism.ts, together with the parts of the
    JavaScript runtime they rest on (UTF-16 strings, Number::toString,
    JSON.stringify with an array replacer, Array.prototype.sort, SHA-256). *)

From Stdlib Require Import ZArith NArith List String Ascii Floats Lia.
From stdpp Require Import base option list sorting.
Import ListNotations.

Open Scope N_scope.

(** ** JavaScript strings

    A JavaScript string is a sequence of UTF-16 code units. *)

Definition jsstring := list N.

(** The source text is UTF-8; [js] gives the string value a literal of the
    source denotes: the code points of the literal, in UTF-16. *)

Fixpoint utf8_decode (bs : list N) : list N :=
  match bs with
  | [] => []
  | b0 :: r0 =>
    if b0 <? 0x80 then b0 :: utf8_decode r0
    else match r0 with
    | [] => [0xFFFD]
    | b1 :: r1 =>
      if b0 <? 0xE0 then
        (N.land b0 0x1F * 64 + N.land b1 0x3F) :: utf8_decode r1
      else match r1 with
      | [] => [0xFFFD]
      | b2 :: r2 =>
        if b0 <? 0xF0 then
          (N.land b0 0x0F * 4096 + N.land b1 0x3F * 64 + N.land b2 0x3F)
            :: utf8_decode r2
        else match r2 with
        | [] => [0xFFFD]
        | b3 :: r3 =>
          (N.land b0 0x07 * 262144 + N.land b1 0x3F * 4096
           + N.land b2 0x3F * 64 + N.land b3 0x3F) :: utf8_decode r3
        end
      end
    end
  end.

Definition utf16_of_code_point (c : N) : list N :=
  if c <? 0x10000 then [c]
  else [0xD800 + (c - 0x10000) / 1024; 0xDC00 + (c - 0x10000) mod 1024].

Definition js (s : string) : jsstring :=
  flat_map utf16_of_code_point
    (utf8_decode (map N_of_ascii (list_ascii_of_string s))).

Definition is_high_surrogate (u : N) : bool := (0xD800 <=? u) && (u <=? 0xDBFF).
Definition is_low_surrogate (u : N) : bool := (0xDC00 <=? u) && (u <=? 0xDFFF).

Definition utf8_of_code_point (c : N) : list N :=
  if c <? 0x80 then [c]
  else if c <? 0x800 then [0xC0 + c / 64; 0x80 + c mod 64]
  else if c <? 0x10000 then
    [0xE0 + c / 4096; 0x80 + (c / 64) mod 64; 0x80 + c mod 64]
  else
    [0xF0 + c / 262144; 0x80 + (c / 4096) mod 64;
     0x80 + (c / 64) mod 64; 0x80 + c mod 64].

(** The bytes [hash.update(str)] feeds to the digest: the UTF-8 encoding of
    the string, an unpaired surrogate becoming U+FFFD. *)
Fixpoint utf8_encode (us : jsstring) : list N :=
  match us with
  | [] => []
  | u :: r =>
    if is_high_surrogate u then
      match r with
      | lo :: r' =>
        if is_low_surrogate lo then
          utf8_of_code_point (0x10000 + (u - 0xD800) * 1024 + (lo - 0xDC00))
            ++ utf8_encode r'
        else utf8_of_code_point 0xFFFD ++ utf8_encode r
      | [] => utf8_of_code_point 0xFFFD
      end
    else if is_low_surrogate u then utf8_of_code_point 0xFFFD ++ utf8_encode r
    else utf8_of_code_point u ++ utf8_encode r
  end.

(** [arr.join(sep)] on an array of strings. *)
Fixpoint join (sep : jsstring) (parts : list jsstring) : jsstring :=
  match parts with
  | [] => []
  | [p] => p
  | p :: rest => p ++ sep ++ join sep rest
  end.

(** [str.slice(0, n)]. *)
Definition slice0 (n : nat) (s : jsstring) : jsstring := firstn n s.

(** [str.toUpperCase()] on the ASCII letters (the strings it is applied to
    are the lower-case literals of a union type). *)
Definition toUpperCase (s : jsstring) : jsstring :=
  map (fun u => if (0x61 <=? u) && (u <=? 0x7A) then u - 0x20 else u) s.

(** Decimal digits of a natural number. *)
Fixpoint uint_digits (d : Decimal.uint) : jsstring :=
  match d with
  | Decimal.Nil => []
  | Decimal.D0 r => 0x30 :: uint_digits r
  | Decimal.D1 r => 0x31 :: uint_digits r
  | Decimal.D2 r => 0x32 :: uint_digits r
  | Decimal.D3 r => 0x33 :: uint_digits r
  | Decimal.D4 r => 0x34 :: uint_digits r
  | Decimal.D5 r => 0x35 :: uint_digits r
  | Decimal.D6 r => 0x36 :: uint_digits r
  | Decimal.D7 r => 0x37 :: uint_digits r
  | Decimal.D8 r => 0x38 :: uint_digits r
  | Decimal.D9 r => 0x39 :: uint_digits r
  end.

Definition decimal (n : N) : jsstring := uint_digits (N.to_uint n).

(** ** JavaScript numbers

    A Number is an IEEE 754 binary64 value: Rocq's primitive [float]. *)

Definition number := float.

(** The Number a length is (array lengths are below [2^32]). *)
Definition Number_of_nat (n : nat) : number :=
  PrimFloat.of_uint63 (Uint63.of_Z (Z.of_nat n)).

Module NumberToString.
Open Scope Z_scope.

(** The finite positive value is [m * 2^e].  Decimals and binary fractions
    are compared exactly, as integers after cross-multiplication, a negative
    power on one side being a positive power on the other. *)
Definition pow_pos (b p : Z) : Z := if 0 <=? p then b ^ p else 1.

(** [cmp_dec_bin s p l q] compares [s * 10^p] with [l * 2^q]. *)
Definition cmp_dec_bin (s p l q : Z) : comparison :=
  (s * pow_pos 10 p * pow_pos 2 (- q) ?= l * pow_pos 2 q * pow_pos 10 (- p)).

(** [floor_log10 m e]: the [t] with [10^t <= m * 2^e < 10^(t+1)], searched
    around the estimate [log2 * 1233 / 4096]. *)
Definition floor_log10 (m e : Z) : Z :=
  let est := (Z.log2 m + e) * 1233 / 4096 in
  let ok t := match cmp_dec_bin 1 t m e with Gt => false | _ => true end in
  if ok (est + 2) then est + 2
  else if ok (est + 1) then est + 1
  else if ok est then est
  else if ok (est - 1) then est - 1
  else est - 2.

(** Whether the decimal [s * 10^p] converts back to the double [m * 2^e]:
    it lies between the midpoints to the neighbouring doubles, the midpoints
    themselves counting when [m] is even. *)
Definition rounds_to (m e s p : Z) : bool :=
  let below := if (m =? 2 ^ 52) && (-1074 <? e) then 4 * m - 1 else 4 * m - 2 in
  let above := 4 * m + 2 in
  let lo := cmp_dec_bin s p below (e - 2) in
  let hi := cmp_dec_bin s p above (e - 2) in
  match lo, hi with
  | Gt, Lt => true
  | Eq, _ => Z.even m
  | _, Eq => Z.even m
  | _, _ => false
  end.

(** With [k] digits: the decimals just below and just above the value. *)
Definition candidate (m e n0 k : Z) : option (Z * Z) :=
  let p := n0 - k in
  let num := m * pow_pos 2 e * pow_pos 10 (- p) in
  let den := pow_pos 2 (- e) * pow_pos 10 p in
  let s_lo := num / den in
  let s_hi := s_lo + 1 in
  let in_lo := rounds_to m e s_lo p in
  let in_hi := rounds_to m e s_hi p in
  match in_lo, in_hi with
  | true, false => Some (s_lo, p)
  | false, true => Some (s_hi, p)
  | false, false => None
  | true, true =>
    match 2 * num ?= (2 * s_lo + 1) * den with
    | Lt => Some (s_lo, p)
    | Gt => Some (s_hi, p)
    | Eq => if Z.even s_lo then Some (s_lo, p) else Some (s_hi, p)
    end
  end.

Fixpoint shortest (fuel : nat) (m e n0 k : Z) : Z * Z :=
  match candidate m e n0 k with
  | Some sp => sp
  | None =>
    match fuel with
    | O => (m * pow_pos 2 e, 0)
    | S fuel' => shortest fuel' m e n0 (k + 1)
    end
  end.

Fixpoint strip_zeros (fuel : nat) (s p : Z) : Z * Z :=
  match fuel with
  | O => (s, p)
  | S fuel' => if s mod 10 =? 0 then strip_zeros fuel' (s / 10) (p + 1) else (s, p)
  end.

Definition zeros (n : Z) : jsstring := repeat 0x30%N (Z.to_nat n).

(** Steps 6 to 10 of Number::toString for the digits [ds] of [s] and [n]. *)
Definition layout (ds : jsstring) (n : Z) : jsstring :=
  let k := Z.of_nat (length ds) in
  if (k <=? n) && (n <=? 21) then ds ++ zeros (n - k)
  else if (0 <? n) && (n <=? 21) then
    firstn (Z.to_nat n) ds ++ js "." ++ skipn (Z.to_nat n) ds
  else if (-6 <? n) && (n <=? 0) then js "0." ++ zeros (- n) ++ ds
  else
    let ex := js (if 0 <? n - 1 then "e+" else "e-") ++ decimal (Z.to_N (Z.abs (n - 1))) in
    match ds with
    | [d] => [d] ++ ex
    | d :: rest => [d] ++ js "." ++ rest ++ ex
    | [] => ex
    end.

Definition positive_finite (m e : Z) : jsstring :=
  let n0 := floor_log10 m e + 1 in
  let '(s0, p0) := shortest 17 m e n0 1 in
  let '(s, p) := strip_zeros 400 s0 p0 in
  let ds := decimal (Z.to_N s) in
  layout ds (p + Z.of_nat (length ds)).

End NumberToString.

(** Number::toString(x), radix 10. *)
Definition Number_toString (x : number) : jsstring :=
  match Prim2SF x with
  | S754_nan => js "NaN"
  | S754_zero _ => js "0"
  | S754_infinity s => js (if s then "-Infinity" else "Infinity")
  | S754_finite s m e =>
    (if s then js "-" else []) ++ NumberToString.positive_finite (Z.pos m) e
  end.

(** ** SHA-256 (Node's [crypto.createHash("sha256")], FIPS 180-4) *)

Module Sha256.

Definition w32 (x : N) : N := x mod 0x100000000.
Definition add32 (x y : N) : N := w32 (x + y).
Definition rotr (n x : N) : N := w32 (N.lor (N.shiftr x n) (N.shiftl x (32 - n))).
Definition not32 (x : N) : N := 0xFFFFFFFF - x.

Definition Ch (x y z : N) : N := N.lxor (N.land x y) (N.land (not32 x) z).
Definition Maj (x y z : N) : N :=
  N.lxor (N.lxor (N.land x y) (N.land x z)) (N.land y z).
Definition Sigma0 (x : N) : N := N.lxor (N.lxor (rotr 2 x) (rotr 13 x)) (rotr 22 x).
Definition Sigma1 (x : N) : N := N.lxor (N.lxor (rotr 6 x) (rotr 11 x)) (rotr 25 x).
Definition sigma0 (x : N) : N := N.lxor (N.lxor (rotr 7 x) (rotr 18 x)) (N.shiftr x 3).
Definition sigma1 (x : N) : N := N.lxor (N.lxor (rotr 17 x) (rotr 19 x)) (N.shiftr x 10).

(** The constants, as FIPS 180-4 defines them: the first 32 bits of the
    fractional parts of the cube roots of the first 64 primes, and of the
    square roots of the first 8 primes. *)
Definition is_prime (n : nat) : bool :=
  forallb (fun d => negb (Nat.eqb (Nat.modulo n d) 0)) (seq 2 (n - 2)).

Definition primes : list N :=
  Eval vm_compute in List.map N.of_nat (List.filter is_prime (seq 2 310)).

(** The greatest [r] below [2^bits] with [r^k <= x], found bit by bit. *)
Fixpoint root (k : N) (bits : nat) (x r : N) : N :=
  match bits with
  | O => r
  | S b =>
    let r' := r + 2 ^ N.of_nat b in
    root k b x (if r' ^ k <=? x then r' else r)
  end.

Definition K : list N :=
  Eval vm_compute in List.map (fun p => w32 (root 3 36 (p * 2 ^ 96) 0)) primes.

Definition H0 : list N :=
  Eval vm_compute in
    List.map (fun p => w32 (root 2 36 (p * 2 ^ 64) 0)) (firstn 8 primes).

(** Padding: the bit 1, zeros up to 56 mod 64, the bit length on 8 bytes. *)
Definition be_bytes (count : nat) (x : N) : list N :=
  map (fun i => (x / 256 ^ N.of_nat i) mod 256) (rev (seq 0 count)).

Definition pad (msg : list N) : list N :=
  let len := N.of_nat (length msg) in
  let fill := (64 - (len + 9) mod 64) mod 64 in
  msg ++ [0x80] ++ repeat 0 (N.to_nat fill) ++ be_bytes 8 (8 * len).

Fixpoint words (bs : list N) : list N :=
  match bs with
  | a :: b :: c :: d :: r => (((a * 256 + b) * 256 + c) * 256 + d) :: words r
  | _ => []
  end.

Fixpoint blocks (fuel : nat) (ws : list N) : list (list N) :=
  match fuel, ws with
  | S fuel', _ :: _ => firstn 16 ws :: blocks fuel' (skipn 16 ws)
  | _, _ => []
  end.

(** The message schedule: [w] holds the words so far, newest first. *)
Fixpoint schedule (count : nat) (w : list N) : list N :=
  match count with
  | O => rev w
  | S count' =>
    let nxt :=
      add32 (add32 (sigma1 (nth 1 w 0)) (nth 6 w 0))
            (add32 (sigma0 (nth 14 w 0)) (nth 15 w 0)) in
    schedule count' (nxt :: w)
  end.

Definition round (st : list N) (kw : N * N) : list N :=
  match st with
  | [a; b; c; d; e; f; g; h] =>
    let t1 := add32 (add32 (add32 h (Sigma1 e)) (add32 (Ch e f g) (fst kw))) (snd kw) in
    let t2 := add32 (Sigma0 a) (Maj a b c) in
    [add32 t1 t2; a; b; c; add32 d t1; e; f; g]
  | _ => st
  end.

Definition compress (st block : list N) : list N :=
  let w := schedule 48 (rev block) in
  let st' := fold_left round (combine K w) st in
  map (fun p => add32 (fst p) (snd p)) (combine st st').

Definition digest (msg : list N) : list N :=
  let ws := words (pad msg) in
  let st := fold_left compress (blocks (length ws) ws) H0 in
  flat_map (be_bytes 4) st.

Definition hex_digit (d : N) : N := if d <? 10 then 0x30 + d else 0x57 + d.

(** [.digest("hex")]: two lower-case hexadecimal digits per byte. *)
Definition hex (bs : list N) : jsstring :=
  flat_map (fun b => [hex_digit (b / 16); hex_digit (b mod 16)]) bs.

End Sha256.

(** [crypto.createHash("sha256").update(s).digest("hex")]. *)
Definition sha256_hex (s : jsstring) : jsstring :=
  Sha256.hex (Sha256.digest (utf8_encode s)).

(** ** JavaScript values and objects

    An object is the list of its own properties in creation order; its keys
    are pairwise distinct.  The values a trace is made of are plain data:
    they carry no methods (no [toJSON]), and a property an object does not
    own reads as undefined. *)

#[warnings="-register-all"]
Inductive value : Type :=
| VUndefined
| VNull
| VBool (b : bool)
| VNum (n : number)
| VStr (s : jsstring)
| VArr (elems : list value)
| VObj (props : list (jsstring * value)).

Definition object := list (jsstring * value).

(** The first binding of key [k]: the property read [o[k]] on the
    serialized properties of an object. *)
Fixpoint assoc {A : Type} (k : jsstring) (l : list (jsstring * A)) : option A :=
  match l with
  | [] => None
  | (k', x) :: rest => if decide (k = k') then Some x else assoc k rest
  end.

(** [Object.keys(o)] of an object whose keys are names, as those of a
    ReasoningTrace are: the keys in creation order. *)
Definition Object_keys (o : object) : list jsstring := List.map fst o.

(** The order of [Array.prototype.sort()] without a comparator: strings by
    their code units, a proper prefix first. *)
Fixpoint str_leb (x y : jsstring) : bool :=
  match x, y with
  | [], _ => true
  | _ :: _, [] => false
  | a :: x', b :: y' =>
    if a <? b then true else if b <? a then false else str_leb x' y'
  end.

Definition str_le (x y : jsstring) : Prop := str_leb x y = true.

#[global] Instance str_le_dec : RelDecision str_le :=
  fun x y => decide (str_leb x y = true).

Definition Array_sort (l : list jsstring) : list jsstring := merge_sort str_le l.

(** ** JSON.stringify with an array replacer *)

Module JSON.

Definition hex4 (u : N) : jsstring :=
  [Sha256.hex_digit ((u / 4096) mod 16); Sha256.hex_digit ((u / 256) mod 16);
   Sha256.hex_digit ((u / 16) mod 16); Sha256.hex_digit (u mod 16)].

Definition UnicodeEscape (u : N) : jsstring := [0x5C; 0x75] ++ hex4 u.

Fixpoint quote_units (s : jsstring) : jsstring :=
  match s with
  | [] => []
  | u :: r =>
    if u =? 0x08 then [0x5C; 0x62] ++ quote_units r
    else if u =? 0x09 then [0x5C; 0x74] ++ quote_units r
    else if u =? 0x0A then [0x5C; 0x6E] ++ quote_units r
    else if u =? 0x0C then [0x5C; 0x66] ++ quote_units r
    else if u =? 0x0D then [0x5C; 0x72] ++ quote_units r
    else if u =? 0x22 then [0x5C; 0x22] ++ quote_units r
    else if u =? 0x5C then [0x5C; 0x5C] ++ quote_units r
    else if u <? 0x20 then UnicodeEscape u ++ quote_units r
    else if is_high_surrogate u then
      match r with
      | lo :: r' =>
        if is_low_surrogate lo then u :: lo :: quote_units r'
        else UnicodeEscape u ++ quote_units r
      | [] => UnicodeEscape u
      end
    else if is_low_surrogate u then UnicodeEscape u ++ quote_units r
    else u :: quote_units r
  end.

Definition QuoteJSONString (s : jsstring) : jsstring :=
  [0x22] ++ quote_units s ++ [0x22].

(** SerializeJSONObject with a PropertyList and no gap, [strs] holding the
    serialized value of each own property ([None]: undefined): the listed
    keys are read in the order of the list, those whose value is undefined
    are left out. *)
Definition members (PropertyList : list jsstring)
    (strs : list (jsstring * option jsstring)) : jsstring :=
  let partial :=
    omap (fun P =>
            match assoc P strs with
            | Some (Some strP) => Some (QuoteJSONString P ++ js ":" ++ strP)
            | _ => None
            end) PropertyList in
  js "{" ++ join (js ",") partial ++ js "}".

(** SerializeJSONProperty on the value read; [None] is undefined. *)
Fixpoint SerializeJSONProperty (PropertyList : list jsstring) (v : value)
    : option jsstring :=
  match v with
  | VUndefined => None
  | VNull => Some (js "null")
  | VBool b => Some (js (if b then "true" else "false"))
  | VNum n => Some (if PrimFloat.is_finite n then Number_toString n else js "null")
  | VStr s => Some (QuoteJSONString s)
  | VArr elems =>
    Some (js "[" ++
          join (js ",")
            (List.map (fun e =>
               match SerializeJSONProperty PropertyList e with
               | Some strP => strP
               | None => js "null"
               end) elems) ++ js "]")
  | VObj props =>
    Some (members PropertyList
            (List.map (fun '(k, x) => (k, SerializeJSONProperty PropertyList x))
               props))
  end.

Definition SerializeJSONObject (PropertyList : list jsstring) (o : object)
    : jsstring :=
  members PropertyList
    (List.map (fun '(k, x) => (k, SerializeJSONProperty PropertyList x)) o).

(** [JSON.stringify(o, replacer)] for an object [o] and an array [replacer]
    of distinct strings. *)
Definition stringify (o : object) (replacer : list jsstring) : jsstring :=
  SerializeJSONObject replacer o.

End JSON.

(** ** solprism.ts: constants and the trace hash *)

Definition SOLPRISM_PROGRAM_ID : jsstring :=
  js "CZcvoryaQNrtZ3qb3gC1h9opcYpzEP1D9Mu1RVwFQeBu".
Definition SOLPRISM_SCHEMA_VERSION : jsstring := js "1.0.0".

Definition hashTrace (trace : object) : jsstring :=
  let canonical := JSON.stringify trace (Array_sort (Object_keys trace)) in
  sha256_hex canonical.

(** ** solprism.ts: types

    One record per interface, its fields under the interface's names; an
    optional property is an [option]. *)

Inductive scalar : Type :=
| SStr (s : jsstring)
| SNum (n : number)
| SBool (b : bool).

Module TraceAction.
Record t := {
  type : jsstring;
  description : jsstring;
  transactionSignature : option jsstring }.
End TraceAction.

Module DataSource.
Record t := {
  name : jsstring;
  type : jsstring;
  queriedAt : jsstring;
  summary : jsstring }.
End DataSource.

Module Inputs.
Record t := {
  dataSources : list DataSource.t;
  context : jsstring }.
End Inputs.

Module Alternative.
Record t := {
  action : jsstring;
  reasonRejected : jsstring }.
End Alternative.

Module Analysis.
Record t := {
  observations : list jsstring;
  logic : jsstring;
  alternativesConsidered : list Alternative.t }.
End Analysis.

Module Decision.
Record t := {
  actionChosen : jsstring;
  confidence : number;
  riskAssessment : jsstring;
  expectedOutcome : jsstring }.
End Decision.

Module Metadata.
Record t := {
  model : option jsstring;
  sessionId : option jsstring;
  executionTimeMs : option number;
  custom : option (list (jsstring * scalar)) }.
End Metadata.

Module ReasoningTrace.
Record t := {
  version : jsstring;
  agent : jsstring;
  timestamp : number;
  action : TraceAction.t;
  inputs : Inputs.t;
  analysis : Analysis.t;
  decision : Decision.t;
  metadata : option Metadata.t }.
End ReasoningTrace.

Module PredictionStage.
Record t := {
  name : jsstring;
  passed : bool;
  confidence : number;
  reason : jsstring }.
End PredictionStage.

Inductive RiskLevel : Type := safe | suspicious | dangerous.

Definition RiskLevel_string (r : RiskLevel) : jsstring :=
  match r with
  | safe => js "safe"
  | suspicious => js "suspicious"
  | dangerous => js "dangerous"
  end.

Module ScamCheckResult.
Record t := {
  tokenMint : jsstring;
  isScam : bool;
  checks : list jsstring;
  riskLevel : RiskLevel }.
End ScamCheckResult.

Inductive TradeAction : Type := buy | sell | hold.

Definition TradeAction_string (a : TradeAction) : jsstring :=
  match a with
  | buy => js "buy"
  | sell => js "sell"
  | hold => js "hold"
  end.

Module CyclicSignal.
Record t := {
  alignment : number;
  window : jsstring }.
End CyclicSignal.

Module TradeDecision.
Record t := {
  tokenMint : jsstring;
  action : TradeAction;
  amount : number;
  predictionStages : list PredictionStage.t;
  scamCheck : option ScamCheckResult.t;
  cyclicSignal : option CyclicSignal.t;
  confidence : number }.
End TradeDecision.

Module FirewallParams.
Record t := {
  transactionType : jsstring;
  simulated : bool;
  simulationPassed : bool;
  spendLimitOk : bool;
  slippageOk : bool;
  programAllowed : bool;
  approved : bool;
  reason : jsstring }.
End FirewallParams.

(** *** The object a record denotes

    The properties are in the order of the interface, which is the order in
    which both builders write their literals; an absent optional property
    is not a property of the object.  The hash of an object does not depend
    on the order its properties were created in (shown below for all
    objects), so a record stands for every object with its content. *)

Definition optional (k : string) (x : option value) : object :=
  match x with
  | Some v => [(js k, v)]
  | None => []
  end.

Definition obj_of_scalar (x : scalar) : value :=
  match x with
  | SStr s => VStr s
  | SNum n => VNum n
  | SBool b => VBool b
  end.

Definition obj_of_action (a : TraceAction.t) : object :=
  [(js "type", VStr (TraceAction.type a));
   (js "description", VStr (TraceAction.description a))]
  ++ optional "transactionSignature" (VStr <$> TraceAction.transactionSignature a).

Definition obj_of_dataSource (s : DataSource.t) : object :=
  [(js "name", VStr (DataSource.name s));
   (js "type", VStr (DataSource.type s));
   (js "queriedAt", VStr (DataSource.queriedAt s));
   (js "summary", VStr (DataSource.summary s))].

Definition obj_of_inputs (i : Inputs.t) : object :=
  [(js "dataSources",
    VArr (List.map (fun s => VObj (obj_of_dataSource s)) (Inputs.dataSources i)));
   (js "context", VStr (Inputs.context i))].

Definition obj_of_alternative (a : Alternative.t) : object :=
  [(js "action", VStr (Alternative.action a));
   (js "reasonRejected", VStr (Alternative.reasonRejected a))].

Definition obj_of_analysis (a : Analysis.t) : object :=
  [(js "observations", VArr (List.map VStr (Analysis.observations a)));
   (js "logic", VStr (Analysis.logic a));
   (js "alternativesConsidered",
    VArr (List.map (fun x => VObj (obj_of_alternative x))
            (Analysis.alternativesConsidered a)))].

Definition obj_of_decision (d : Decision.t) : object :=
  [(js "actionChosen", VStr (Decision.actionChosen d));
   (js "confidence", VNum (Decision.confidence d));
   (js "riskAssessment", VStr (Decision.riskAssessment d));
   (js "expectedOutcome", VStr (Decision.expectedOutcome d))].

Definition obj_of_metadata (m : Metadata.t) : object :=
  optional "model" (VStr <$> Metadata.model m)
  ++ optional "sessionId" (VStr <$> Metadata.sessionId m)
  ++ optional "executionTimeMs" (VNum <$> Metadata.executionTimeMs m)
  ++ optional "custom"
       ((fun c => VObj (List.map (fun '(k, x) => (k, obj_of_scalar x)) c))
          <$> Metadata.custom m).

Definition obj_of_trace (t : ReasoningTrace.t) : object :=
  [(js "version", VStr (ReasoningTrace.version t));
   (js "agent", VStr (ReasoningTrace.agent t));
   (js "timestamp", VNum (ReasoningTrace.timestamp t));
   (js "action", VObj (obj_of_action (ReasoningTrace.action t)));
   (js "inputs", VObj (obj_of_inputs (ReasoningTrace.inputs t)));
   (js "analysis", VObj (obj_of_analysis (ReasoningTrace.analysis t)));
   (js "decision", VObj (obj_of_decision (ReasoningTrace.decision t)))]
  ++ optional "metadata"
       ((fun m => VObj (obj_of_metadata m)) <$> ReasoningTrace.metadata t).

(** ** solprism.ts: the trace builders

    The clock of the environment as one call of a builder reads it:
    [Date.now()], and the string of the [k]-th [new Date().toISOString()]. *)

Record Clock := {
  Date_now : number;
  Date_toISOString : nat -> jsstring }.

Definition createTradeReasoningTrace (clock : Clock) (decision : TradeDecision.t)
    : ReasoningTrace.t :=
  let stages := TradeDecision.predictionStages decision in
  let action := TradeAction_string (TradeDecision.action decision) in
  let amount := Number_toString (TradeDecision.amount decision) in
  let confidence := Number_toString (TradeDecision.confidence decision) in
  let token := slice0 8 (TradeDecision.tokenMint decision) in
  let count (l : list PredictionStage.t) := Number_toString (Number_of_nat (length l)) in
  let allStagesPassed := forallb PredictionStage.passed stages in
  let scamSafe :=
    match TradeDecision.scamCheck decision with
    | None => true
    | Some sc => negb (ScamCheckResult.isScam sc)
    end in
  let approved := allStagesPassed && scamSafe in
  let observations :=
    [js "Token: " ++ token ++ js "...";
     js "Action: " ++ toUpperCase action;
     js "Amount: " ++ amount]
    ++ List.map
         (fun s =>
            PredictionStage.name s ++ js ": "
            ++ (if PredictionStage.passed s then js "✅ PASS" else js "❌ FAIL")
            ++ js " (" ++ Number_toString (PredictionStage.confidence s)
            ++ js "% confidence) — " ++ PredictionStage.reason s)
         stages
    ++ match TradeDecision.scamCheck decision with
       | Some sc =>
         [js "Scam check: "
          ++ toUpperCase (RiskLevel_string (ScamCheckResult.riskLevel sc))
          ++ js " — " ++ join (js ", ") (ScamCheckResult.checks sc)]
       | None => []
       end
    ++ match TradeDecision.cyclicSignal decision with
       | Some cs =>
         [js "Cyclic signal: " ++ Number_toString (CyclicSignal.alignment cs)
          ++ js "% alignment in " ++ CyclicSignal.window cs ++ js " window"]
       | None => []
       end in
  let failedStages :=
    List.filter (fun s => negb (PredictionStage.passed s)) stages in
  let failedNames := join (js ", ") (List.map PredictionStage.name failedStages) in
  let alternatives :=
    if approved then
      [{| Alternative.action := js "Reject trade";
          Alternative.reasonRejected :=
            js "All prediction stages passed and scam check is clean" |};
       {| Alternative.action := js "Wait for more confirmations";
          Alternative.reasonRejected :=
            js "Confidence at " ++ confidence ++ js "%, all " ++ count stages
            ++ js " stages confirmed" |}]
    else
      [{| Alternative.action := js "Execute " ++ action ++ js " anyway";
          Alternative.reasonRejected :=
            if Nat.ltb 0 (length failedStages) then
              count failedStages ++ js " prediction stage(s) failed: " ++ failedNames
            else js "Scam check flagged this token" |}] in
  {| ReasoningTrace.version := SOLPRISM_SCHEMA_VERSION;
     ReasoningTrace.agent := js "AgentShield";
     ReasoningTrace.timestamp := Date_now clock;
     ReasoningTrace.action :=
       {| TraceAction.type := if approved then js "trade" else js "rejection";
          TraceAction.description :=
            if approved then
              js "APPROVED: " ++ action ++ js " " ++ amount ++ js " of " ++ token
              ++ js "..."
            else js "REJECTED: " ++ action ++ js " blocked by safety gate";
          TraceAction.transactionSignature := None |};
     ReasoningTrace.inputs :=
       {| Inputs.dataSources :=
            [{| DataSource.name := js "Multi-Stage Prediction Gate";
                DataSource.type := js "internal";
                DataSource.queriedAt := Date_toISOString clock 0;
                DataSource.summary :=
                  count (List.filter PredictionStage.passed stages) ++ js "/"
                  ++ count stages ++ js " stages passed" |}]
            ++ match TradeDecision.scamCheck decision with
               | Some sc =>
                 [{| DataSource.name := js "Scam & Liquidity Defense";
                     DataSource.type := js "internal";
                     DataSource.queriedAt := Date_toISOString clock 1;
                     DataSource.summary :=
                       js "Risk level: "
                       ++ RiskLevel_string (ScamCheckResult.riskLevel sc) |}]
               | None => []
               end
            ++ match TradeDecision.cyclicSignal decision with
               | Some cs =>
                 [{| DataSource.name := js "Cyclic Signal Layer";
                     DataSource.type := js "internal";
                     DataSource.queriedAt :=
                       Date_toISOString clock
                         match TradeDecision.scamCheck decision with
                         | Some _ => 2%nat
                         | None => 1%nat
                         end;
                     DataSource.summary :=
                       Number_toString (CyclicSignal.alignment cs)
                       ++ js "% alignment in " ++ CyclicSignal.window cs |}]
               | None => []
               end;
          Inputs.context := js "AgentShield multi-stage safety gate evaluation" |};
     ReasoningTrace.analysis :=
       {| Analysis.observations := observations;
          Analysis.logic :=
            if approved then
              (js "All " ++ count stages ++ js " prediction stages passed. ")
              ++ (if scamSafe then js "Scam check clean. " else [])
              ++ (js "Confidence: " ++ confidence ++ js "%. Trade approved.")
            else
              js "Trade blocked by safety gate. "
              ++ (if existsb (fun s => negb (PredictionStage.passed s)) stages
                  then js "Failed stages: " ++ failedNames ++ js ". "
                  else [])
              ++ match TradeDecision.scamCheck decision with
                 | Some sc =>
                   if negb scamSafe then
                     js "Scam check: "
                     ++ RiskLevel_string (ScamCheckResult.riskLevel sc) ++ js ". "
                   else []
                 | None => []
                 end
              ++ js "No override allowed.";
          Analysis.alternativesConsidered := alternatives |};
     ReasoningTrace.decision :=
       {| Decision.actionChosen :=
            if approved then action ++ js " " ++ amount
            else js "REJECT — trade blocked";
          Decision.confidence := TradeDecision.confidence decision;
          Decision.riskAssessment :=
            if approved then
              (if PrimFloat.leb 80 (TradeDecision.confidence decision)
               then js "low" else js "moderate")
            else js "high";
          Decision.expectedOutcome :=
            if approved then
              js "Execute " ++ action ++ js " with " ++ confidence ++ js "% confidence"
            else js "Trade rejected, funds protected" |};
     ReasoningTrace.metadata :=
       Some
         {| Metadata.model := None;
            Metadata.sessionId := None;
            Metadata.executionTimeMs := None;
            Metadata.custom :=
              Some
                [(js "stagesPassed",
                  SNum (Number_of_nat
                          (length (List.filter PredictionStage.passed stages))));
                 (js "totalStages", SNum (Number_of_nat (length stages)));
                 (js "scamRisk",
                  SStr match TradeDecision.scamCheck decision with
                       | Some sc => RiskLevel_string (ScamCheckResult.riskLevel sc)
                       | None => js "unchecked"
                       end);
                 (js "approved", SBool approved)] |} |}.

Definition createFirewallTrace (clock : Clock) (params : FirewallParams.t)
    : ReasoningTrace.t :=
  let transactionType := FirewallParams.transactionType params in
  let approved := FirewallParams.approved params in
  let reason := FirewallParams.reason params in
  let observations :=
    [js "Transaction type: " ++ transactionType;
     js "Simulation: "
     ++ (if FirewallParams.simulated params then
           (if FirewallParams.simulationPassed params
            then js "✅ PASS" else js "❌ FAIL")
         else js "⏭️ SKIPPED");
     js "Spend limit: "
     ++ (if FirewallParams.spendLimitOk params then js "✅ OK" else js "❌ EXCEEDED");
     js "Slippage: "
     ++ (if FirewallParams.slippageOk params then js "✅ OK" else js "❌ EXCEEDED");
     js "Program allowlist: "
     ++ (if FirewallParams.programAllowed params
         then js "✅ ALLOWED" else js "❌ BLOCKED")] in
  {| ReasoningTrace.version := SOLPRISM_SCHEMA_VERSION;
     ReasoningTrace.agent := js "AgentShield";
     ReasoningTrace.timestamp := Date_now clock;
     ReasoningTrace.action :=
       {| TraceAction.type :=
            if approved then js "firewall_allow" else js "firewall_deny";
          TraceAction.description :=
            if approved then js "Firewall ALLOW: " ++ transactionType
            else js "Firewall DENY: " ++ transactionType ++ js " — " ++ reason;
          TraceAction.transactionSignature := None |};
     ReasoningTrace.inputs :=
       {| Inputs.dataSources :=
            [{| DataSource.name := js "Transaction Firewall";
                DataSource.type := js "internal";
                DataSource.queriedAt := Date_toISOString clock 0;
                DataSource.summary := reason |}];
          Inputs.context := js "AgentShield transaction firewall evaluation" |};
     ReasoningTrace.analysis :=
       {| Analysis.observations := observations;
          Analysis.logic := reason;
          Analysis.alternativesConsidered :=
            if approved then
              [{| Alternative.action := js "Block transaction";
                  Alternative.reasonRejected := js "All firewall checks passed" |}]
            else
              [{| Alternative.action := js "Allow transaction";
                  Alternative.reasonRejected := reason |}] |};
     ReasoningTrace.decision :=
       {| Decision.actionChosen := if approved then js "ALLOW" else js "DENY";
          Decision.confidence := if approved then 90%float else 95%float;
          Decision.riskAssessment := if approved then js "low" else js "high";
          Decision.expectedOutcome :=
            if approved then js "Transaction executed safely"
            else js "Transaction blocked, funds protected" |};
     ReasoningTrace.metadata := None |}.

(** ** The heap

    Objects that are shared by reference live in a heap: the trace objects
    callers build and pass around, the CommitmentResult objects, and the
    arrays of CommitmentResult.  A location is an index into the heap. *)

Abbreviation loc := nat (only parsing).

Module CommitmentResult.
Record t := {
  hash : jsstring;
  trace : loc;
  timestamp : number }.
End CommitmentResult.

Inductive cell : Type :=
| CTrace (t : ReasoningTrace.t)
| CResult (r : CommitmentResult.t)
| CArray (elems : list loc).

Record World := {
  heap : list cell;
  console : list jsstring }.

(** Computations on the world; [None] is a read through a reference that
    does not hold an object of the expected type, which a typed caller
    never makes. *)
Definition M (A : Type) : Type := World -> option (A * World).

#[global] Instance M_ret : MRet M := fun A x w => Some (x, w).

#[global] Instance M_bind : MBind M := fun A B f c w =>
  match c w with
  | Some (x, w') => f x w'
  | None => None
  end.

Definition fail {A : Type} : M A := fun _ => None.

Definition alloc (c : cell) : M loc := fun w =>
  Some (length (heap w), {| heap := heap w ++ [c]; console := console w |}).

Definition load (l : loc) : M cell := fun w =>
  match heap w !! l with
  | Some c => Some (c, w)
  | None => None
  end.

Definition store (l : loc) (c : cell) : M unit := fun w =>
  match heap w !! l with
  | Some _ => Some (tt, {| heap := <[l := c]> (heap w); console := console w |})
  | None => None
  end.

Definition console_log (line : jsstring) : M unit := fun w =>
  Some (tt, {| heap := heap w; console := console w ++ [line] |}).

Definition load_trace (l : loc) : M ReasoningTrace.t :=
  c ← load l; match c with CTrace t => mret t | _ => fail end.

Definition load_result (l : loc) : M CommitmentResult.t :=
  c ← load l; match c with CResult r => mret r | _ => fail end.

Definition load_array (l : loc) : M (list loc) :=
  c ← load l; match c with CArray elems => mret elems | _ => fail end.

(** [arr.push(x)]. *)
Definition push (arr x : loc) : M unit :=
  elems ← load_array arr; store arr (CArray (elems ++ [x])).

(** ** solprism.ts: the commitment manager *)

Module Config.
Record t := { agentName : option jsstring }.
End Config.

Module SolprismShield.

Record t := {
  agentName : jsstring;
  commitments : loc }.

(** The constructor; [config.agentName || "AgentShield"] also replaces the
    empty string. *)
Definition new (config : Config.t) : M t :=
  arr ← alloc (CArray []);
  mret {| agentName :=
            match Config.agentName config with
            | Some (u :: s) => u :: s
            | _ => js "AgentShield"
            end;
          commitments := arr |}.

Definition commit (this : t) (trace : loc) (now : number) : M loc :=
  tr ← load_trace trace;
  let hash := hashTrace (obj_of_trace tr) in
  result ← alloc (CResult {| CommitmentResult.hash := hash;
                             CommitmentResult.trace := trace;
                             CommitmentResult.timestamp := now |});
  _ ← push (commitments this) result;
  _ ← console_log
        (js "[SOLPRISM] 🛡️ Reasoning committed: "
         ++ TraceAction.type (ReasoningTrace.action tr) ++ js " | "
         ++ js "decision=" ++ Decision.actionChosen (ReasoningTrace.decision tr)
         ++ js " | "
         ++ js "confidence="
         ++ Number_toString (Decision.confidence (ReasoningTrace.decision tr))
         ++ js "% | "
         ++ js "hash=" ++ slice0 16 hash ++ js "...");
  mret result.

Definition verify (this : t) (hash : jsstring) (trace : loc) : M bool :=
  tr ← load_trace trace;
  let computedHash := hashTrace (obj_of_trace tr) in
  let valid := bool_decide (computedHash = hash) in
  _ ← console_log
        (js "[SOLPRISM] " ++ (if valid then js "✅" else js "❌")
         ++ js " Verification: " ++ (if valid then js "MATCH" else js "MISMATCH"));
  mret valid.

(** [[...this.commitments]]: a new array with the same elements. *)
Definition getCommitments (this : t) : M loc :=
  elems ← load_array (commitments this);
  alloc (CArray elems).

Definition commitTradeDecision (this : t) (decision : TradeDecision.t)
    (clock : Clock) (now : number) : M loc :=
  trace ← alloc (CTrace (createTradeReasoningTrace clock decision));
  commit this trace now.

Definition commitFirewallDecision (this : t) (params : FirewallParams.t)
    (clock : Clock) (now : number) : M loc :=
  trace ← alloc (CTrace (createFirewallTrace clock params));
  commit this trace now.

End SolprismShield.

(** *** Sequences of calls on one manager *)

Inductive call : Type :=
| Commit (trace : loc) (now : number)
| Verify (hash : jsstring) (trace : loc)
| GetCommitments
| CommitTradeDecision (decision : TradeDecision.t) (clock : Clock) (now : number)
| CommitFirewallDecision (params : FirewallParams.t) (clock : Clock) (now : number).

(** One call; a committing call yields the CommitmentResult it returns. *)
Definition perform (this : SolprismShield.t) (c : call) : M (list loc) :=
  match c with
  | Commit trace now => r ← SolprismShield.commit this trace now; mret [r]
  | Verify hash trace => _ ← SolprismShield.verify this hash trace; mret []
  | GetCommitments => _ ← SolprismShield.getCommitments this; mret []
  | CommitTradeDecision decision clock now =>
    r ← SolprismShield.commitTradeDecision this decision clock now; mret [r]
  | CommitFirewallDecision params clock now =>
    r ← SolprismShield.commitFirewallDecision this params clock now; mret [r]
  end.

(** The calls in order; the results of the committing calls, in call order. *)
Fixpoint run (this : SolprismShield.t) (calls : list call) : M (list loc) :=
  match calls with
  | [] => mret []
  | c :: rest => rs ← perform this c; rs' ← run this rest; mret (rs ++ rs')
  end.

Definition commits (calls : list call) : nat :=
  length (List.filter (fun c => match c with
                                | Verify _ _ | GetCommitments => false
                                | _ => true
                                end) calls).

(** *** What a caller can do with a snapshot

    Any change to an array it holds (assigning an element or the length,
    push, pop, splice) leaves it with some other elements; an assignment to a
    property of a CommitmentResult leaves the object with other fields. *)

Definition assign_elements (arr : loc) (elems : list loc) : M unit :=
  _ ← load_array arr; store arr (CArray elems).

Definition assign_fields (result : loc) (r : CommitmentResult.t) : M unit :=
  _ ← load_result result; store result (CResult r).

(** The CommitmentResult values an array holds. *)
Definition read_results (arr : loc) : M (list CommitmentResult.t) :=
  elems ← load_array arr; mapM load_result elems.

(** The history a later [getCommitments()] shows: the fields of the entries
    of the array it returns. *)
Definition audit (this : SolprismShield.t) : M (list CommitmentResult.t) :=
  snapshot ← SolprismShield.getCommitments this; read_results snapshot.

(** A call is well typed in a world when the trace it passes is a trace
    object there. *)
Definition call_ok (w : World) (c : call) : Prop :=
  match c with
  | Commit trace _ | Verify _ trace => exists tr, heap w !! trace = Some (CTrace tr)
  | _ => True
  end.

(** ** Notions the properties are stated with *)

(** [reordered v1 v2]: the two values have the same content, the properties
    of every object, at any depth, possibly created in another order. *)
#[warnings="-register-all"]
Inductive reordered : value -> value -> Prop :=
| reordered_undefined : reordered VUndefined VUndefined
| reordered_null : reordered VNull VNull
| reordered_bool b : reordered (VBool b) (VBool b)
| reordered_num n : reordered (VNum n) (VNum n)
| reordered_str s : reordered (VStr s) (VStr s)
| reordered_arr xs ys :
    Forall2 reordered xs ys -> reordered (VArr xs) (VArr ys)
| reordered_obj o1 o2 o2' :
    NoDup (List.map fst o1) ->
    Forall2 (fun p q => fst p = fst q /\ reordered (snd p) (snd q)) o1 o2 ->
    Permutation o2 o2' ->
    reordered (VObj o1) (VObj o2').

(** One reordering: every object written with its properties in the
    opposite order. *)
Fixpoint reverse_keys (v : value) : value :=
  match v with
  | VArr elems => VArr (List.map reverse_keys elems)
  | VObj props => VObj (rev (List.map (fun '(k, x) => (k, reverse_keys x)) props))
  | _ => v
  end.

Fixpoint distinct_keys (v : value) : bool :=
  match v with
  | VArr elems => forallb distinct_keys elems
  | VObj props =>
    bool_decide (NoDup (List.map fst props))
    && forallb (fun '(_, x) => distinct_keys x) props
  | _ => true
  end.

Definition props_of (v : value) : object :=
  match v with
  | VObj props => props
  | _ => []
  end.

(** The value of the local constant [approved] of createTradeReasoningTrace. *)
Definition approved (decision : TradeDecision.t) : bool :=
  forallb PredictionStage.passed (TradeDecision.predictionStages decision)
  && match TradeDecision.scamCheck decision with
     | None => true
     | Some sc => negb (ScamCheckResult.isScam sc)
     end.

(** The value of its local constant [failedStages]. *)
Definition failedStages (decision : TradeDecision.t) : list PredictionStage.t :=
  List.filter (fun s => negb (PredictionStage.passed s))
    (TradeDecision.predictionStages decision).

(** The approval of a trade in the words of the specification: every stage
    passed, and no scam check was supplied or it did not flag the token. *)
Definition Approved (d : TradeDecision.t) : Prop :=
  Forall (fun s => PredictionStage.passed s = true) (TradeDecision.predictionStages d)
  /\ (TradeDecision.scamCheck d = None
      \/ exists sc, TradeDecision.scamCheck d = Some sc
                    /\ ScamCheckResult.isScam sc = false).

(** What [hashTrace] serializes of a trace: its own properties under the
    sorted list of its own keys, no key of which names a property of a
    nested object. *)
Definition top_level (t : ReasoningTrace.t) : list (jsstring * option jsstring) :=
  [(js "version", Some (JSON.QuoteJSONString (ReasoningTrace.version t)));
   (js "agent", Some (JSON.QuoteJSONString (ReasoningTrace.agent t)));
   (js "timestamp",
    Some (if PrimFloat.is_finite (ReasoningTrace.timestamp t)
          then Number_toString (ReasoningTrace.timestamp t) else js "null"));
   (js "action", Some (js "{}"));
   (js "inputs", Some (js "{}"));
   (js "analysis", Some (js "{}"));
   (js "decision", Some (js "{}"))]
  ++ match ReasoningTrace.metadata t with
     | Some _ => [(js "metadata", Some (js "{}"))]
     | None => []
     end.

(** ** The documented example

    The decision of the usage example in solprism.ts, a clock, and variants
    of the decision and of the trace built from it. *)

Definition stage (name : string) (passed : bool) (confidence : number)
    (reason : string) : PredictionStage.t :=
  {| PredictionStage.name := js name;
     PredictionStage.passed := passed;
     PredictionStage.confidence := confidence;
     PredictionStage.reason := js reason |}.

Definition example_decision : TradeDecision.t :=
  {| TradeDecision.tokenMint := js "So11111111111111111111111111111111111111112";
     TradeDecision.action := buy;
     TradeDecision.amount := 1.5%float;
     TradeDecision.predictionStages :=
       [stage "10min-confirm" true 85%float "Uptrend confirmed";
        stage "5min-validate" true 78%float "Secondary signal holds";
        stage "10min-final" true 82%float "Third window passed"];
     TradeDecision.scamCheck :=
       Some {| ScamCheckResult.tokenMint := js "...";
               ScamCheckResult.isScam := false;
               ScamCheckResult.checks := [js "liquidity"; js "holders"];
               ScamCheckResult.riskLevel := safe |};
     TradeDecision.cyclicSignal := None;
     TradeDecision.confidence := 82%float |}.

(** The same decision, its second stage failed. *)
Definition example_rejected : TradeDecision.t :=
  {| TradeDecision.tokenMint := TradeDecision.tokenMint example_decision;
     TradeDecision.action := TradeDecision.action example_decision;
     TradeDecision.amount := TradeDecision.amount example_decision;
     TradeDecision.predictionStages :=
       [stage "10min-confirm" true 85%float "Uptrend confirmed";
        stage "5min-validate" false 78%float "Secondary signal holds";
        stage "10min-final" true 82%float "Third window passed"];
     TradeDecision.scamCheck := TradeDecision.scamCheck example_decision;
     TradeDecision.cyclicSignal := TradeDecision.cyclicSignal example_decision;
     TradeDecision.confidence := TradeDecision.confidence example_decision |}.

(** The same decision with another overall confidence. *)
Definition with_confidence (c : number) (d : TradeDecision.t) : TradeDecision.t :=
  {| TradeDecision.tokenMint := TradeDecision.tokenMint d;
     TradeDecision.action := TradeDecision.action d;
     TradeDecision.amount := TradeDecision.amount d;
     TradeDecision.predictionStages := TradeDecision.predictionStages d;
     TradeDecision.scamCheck := TradeDecision.scamCheck d;
     TradeDecision.cyclicSignal := TradeDecision.cyclicSignal d;
     TradeDecision.confidence := c |}.

(** The same decision, the token flagged by the scam check. *)
Definition example_flagged : TradeDecision.t :=
  {| TradeDecision.tokenMint := TradeDecision.tokenMint example_decision;
     TradeDecision.action := TradeDecision.action example_decision;
     TradeDecision.amount := TradeDecision.amount example_decision;
     TradeDecision.predictionStages := TradeDecision.predictionStages example_decision;
     TradeDecision.scamCheck :=
       Some {| ScamCheckResult.tokenMint := js "...";
               ScamCheckResult.isScam := true;
               ScamCheckResult.checks := [js "liquidity"; js "holders"];
               ScamCheckResult.riskLevel := dangerous |};
     TradeDecision.cyclicSignal := TradeDecision.cyclicSignal example_decision;
     TradeDecision.confidence := TradeDecision.confidence example_decision |}.

Definition example_clock : Clock :=
  {| Date_now := 1700000000000%float;
     Date_toISOString := fun _ => js "2023-11-14T22:13:20.000Z" |}.

Definition example_params (approved : bool) : FirewallParams.t :=
  {| FirewallParams.transactionType := js "swap";
     FirewallParams.simulated := true;
     FirewallParams.simulationPassed := approved;
     FirewallParams.spendLimitOk := true;
     FirewallParams.slippageOk := true;
     FirewallParams.programAllowed := true;
     FirewallParams.approved := approved;
     FirewallParams.reason :=
       js (if approved then "All firewall checks passed" else "Simulation failed") |}.

Definition example_trace : ReasoningTrace.t :=
  createTradeReasoningTrace example_clock example_decision.

(** A copy of a trace in which one leaf, [decision.confidence], is changed. *)
Definition with_decision_confidence (c : number) (t : ReasoningTrace.t)
    : ReasoningTrace.t :=
  {| ReasoningTrace.version := ReasoningTrace.version t;
     ReasoningTrace.agent := ReasoningTrace.agent t;
     ReasoningTrace.timestamp := ReasoningTrace.timestamp t;
     ReasoningTrace.action := ReasoningTrace.action t;
     ReasoningTrace.inputs := ReasoningTrace.inputs t;
     ReasoningTrace.analysis := ReasoningTrace.analysis t;
     ReasoningTrace.decision :=
       {| Decision.actionChosen := Decision.actionChosen (ReasoningTrace.decision t);
          Decision.confidence := c;
          Decision.riskAssessment :=
            Decision.riskAssessment (ReasoningTrace.decision t);
          Decision.expectedOutcome :=
            Decision.expectedOutcome (ReasoningTrace.decision t) |};
     ReasoningTrace.metadata := ReasoningTrace.metadata t |}.

Definition tampered_trace : ReasoningTrace.t :=
  with_decision_confidence 10%float example_trace.

Definition empty_world : World := {| heap := []; console := [] |}.

Definition default_config : Config.t := {| Config.agentName := None |}.

(** Commit the example trace, then verify the committed hash against the
    tampered copy. *)
Definition verify_tampered_copy : M bool :=
  this ← SolprismShield.new default_config;
  trace ← alloc (CTrace example_trace);
  result ← SolprismShield.commit this trace 1700000000001%float;
  r ← load_result result;
  copy ← alloc (CTrace tampered_trace);
  SolprismShield.verify this (CommitmentResult.hash r) copy.

(** A world with a manager that holds one commitment. *)
Definition one_commitment : M SolprismShield.t :=
  this ← SolprismShield.new default_config;
  _ ← SolprismShield.commitTradeDecision this example_decision example_clock
        1700000000001%float;
  mret this.

(** A world in which a caller holds one trace, and calls of every method. *)
Definition caller_world : World :=
  {| heap := [CTrace example_trace]; console := [] |}.

Definition example_calls : list call :=
  [Commit 0%nat 1700000000001%float;
   GetCommitments;
   CommitTradeDecision example_rejected example_clock 1700000000002%float;
   Verify (js "0000") 0%nat;
   CommitFirewallDecision (example_params false) example_clock 1700000000003%float].

(** The manager [new] builds in the empty world, and the world after a
    caller has built the example trace. *)
Definition example_shield : SolprismShield.t :=
  {| SolprismShield.agentName := js "AgentShield";
     SolprismShield.commitments := 0%nat |}.

Definition example_world : World :=
  {| heap := [CArray []; CTrace example_trace]; console := [] |}.

(** The world after [one_commitment]. *)
Definition committed_world : World :=
  Eval vm_compute in
    match one_commitment empty_world with
    | Some (_, w) => w
    | None => empty_world
    end.

(** The CommitmentResult values the references [elems] point to in a heap. *)
Definition result_at (h : list cell) (l : loc) : option CommitmentResult.t :=
  match h !! l with
  | Some (CResult r) => Some r
  | _ => None
  end.

Definition entries (h : list cell) (elems : list loc)
    : option (list CommitmentResult.t) :=
  mapM (result_at h) elems.

(** ** Further notions

    A caller assigns to properties of a trace object it holds: the object
    then has other fields. *)
Definition assign_trace (trace : loc) (t : ReasoningTrace.t) : M unit :=
  _ ← load_trace trace; store trace (CTrace t).

(** The calls that write a line to the console: all but [getCommitments]. *)
Definition logs (calls : list call) : nat :=
  length (List.filter (fun c => match c with
                                | GetCommitments => false
                                | _ => true
                                end) calls).

(** A reference to a CommitmentResult whose hash is the hash of the trace
    it refers to. *)
Definition entry_ok (w : World) (result : loc) : Prop :=
  exists r tr,
    heap w !! result = Some (CResult r)
    /\ heap w !! CommitmentResult.trace r = Some (CTrace tr)
    /\ CommitmentResult.hash r = hashTrace (obj_of_trace tr).

(** A lower-case hexadecimal digit. *)
Definition lower_hex (c : N) : Prop :=
  (0x30 <= c /\ c <= 0x39) \/ (0x61 <= c /\ c <= 0x66).

(** The same decision for another token, and with a scam check made for
    another token. *)
Definition with_tokenMint (m : jsstring) (d : TradeDecision.t) : TradeDecision.t :=
  {| TradeDecision.tokenMint := m;
     TradeDecision.action := TradeDecision.action d;
     TradeDecision.amount := TradeDecision.amount d;
     TradeDecision.predictionStages := TradeDecision.predictionStages d;
     TradeDecision.scamCheck := TradeDecision.scamCheck d;
     TradeDecision.cyclicSignal := TradeDecision.cyclicSignal d;
     TradeDecision.confidence := TradeDecision.confidence d |}.

Definition with_scam_tokenMint (m : jsstring) (d : TradeDecision.t)
    : TradeDecision.t :=
  {| TradeDecision.tokenMint := TradeDecision.tokenMint d;
     TradeDecision.action := TradeDecision.action d;
     TradeDecision.amount := TradeDecision.amount d;
     TradeDecision.predictionStages := TradeDecision.predictionStages d;
     TradeDecision.scamCheck :=
       (fun sc => {| ScamCheckResult.tokenMint := m;
                     ScamCheckResult.isScam := ScamCheckResult.isScam sc;
                     ScamCheckResult.checks := ScamCheckResult.checks sc;
                     ScamCheckResult.riskLevel := ScamCheckResult.riskLevel sc |})
         <$> TradeDecision.scamCheck d;
     TradeDecision.cyclicSignal := TradeDecision.cyclicSignal d;
     TradeDecision.confidence := TradeDecision.confidence d |}.

(** The same decision with other stages. *)
Definition with_stages (stages : list PredictionStage.t) (d : TradeDecision.t)
    : TradeDecision.t :=
  {| TradeDecision.tokenMint := TradeDecision.tokenMint d;
     TradeDecision.action := TradeDecision.action d;
     TradeDecision.amount := TradeDecision.amount d;
     TradeDecision.predictionStages := stages;
     TradeDecision.scamCheck := TradeDecision.scamCheck d;
     TradeDecision.cyclicSignal := TradeDecision.cyclicSignal d;
     TradeDecision.confidence := TradeDecision.confidence d |}.

(** A copy of a trace with another [agent]. *)
Definition with_agent (a : jsstring) (t : ReasoningTrace.t) : ReasoningTrace.t :=
  {| ReasoningTrace.version := ReasoningTrace.version t;
     ReasoningTrace.agent := a;
     ReasoningTrace.timestamp := ReasoningTrace.timestamp t;
     ReasoningTrace.action := ReasoningTrace.action t;
     ReasoningTrace.inputs := ReasoningTrace.inputs t;
     ReasoningTrace.analysis := ReasoningTrace.analysis t;
     ReasoningTrace.decision := ReasoningTrace.decision t;
     ReasoningTrace.metadata := ReasoningTrace.metadata t |}.

(** Firewall parameters whose checks failed although [approved] is set. *)
Definition inconsistent_params : FirewallParams.t :=
  {| FirewallParams.transactionType := js "swap";
     FirewallParams.simulated := true;
     FirewallParams.simulationPassed := false;
     FirewallParams.spendLimitOk := false;
     FirewallParams.slippageOk := false;
     FirewallParams.programAllowed := false;
     FirewallParams.approved := true;
     FirewallParams.reason := js "All firewall checks passed" |}.

(** Commit a trace, let the caller change the trace object, then verify the
    stored hash against the stored trace. *)
Definition verify_after_change (this : SolprismShield.t) (trace : loc)
    (now : number) (changed : ReasoningTrace.t) : M bool :=
  result ← SolprismShield.commit this trace now;
  _ ← assign_trace trace changed;
  r ← load_result result;
  SolprismShield.verify this (CommitmentResult.hash r) (CommitmentResult.trace r).

(** Two managers, calls on the first, then the history of the second. *)
Definition history_of_second (config_a config_b : Config.t) (calls : list call)
    : M (list loc * list loc) :=
  a ← SolprismShield.new config_a;
  b ← SolprismShield.new config_b;
  results ← run a calls;
  snapshot ← SolprismShield.getCommitments b;
  elems ← load_array snapshot;
  mret (results, elems).

Arguments js : simpl never.
Arguments Number_toString : simpl never.
Arguments Number_of_nat : simpl never.
Arguments hashTrace : simpl never.
Arguments sha256_hex : simpl never.

(** * Properties *)

(** ** The runtime model on known values *)

Example sha256_abc :
  sha256_hex (js "abc")
  = js "ba7816bf8f01cfea414140de5dae2223b00361a396177a9cb410ff61f20015ad".
Proof. by vm_compute. Qed.

Example sha256_two_blocks :
  sha256_hex (js "abcdbcdecdefdefgefghfghighijhijkijkljklmklmnlmnomnopnopq")
  = js "248d6a61d20638b8e5c026930c3e6039a33ce45964ff2167f6ecedd419db06c1".
Proof. by vm_compute. Qed.

Example Number_toString_values :
  List.map Number_toString
    [1.5; 82; 1700000000000; 1e21; 1 / 3; 1 / 10000000; -0.5; 0 / 0]%float
  = List.map js
      ["1.5"; "82"; "1700000000000"; "1e+21"; "0.3333333333333333"; "1e-7";
       "-0.5"; "NaN"]%string.
Proof. by vm_compute. Qed.

Example Array_sort_trace_keys :
  Array_sort (Object_keys (obj_of_trace example_trace))
  = List.map js
      ["action"; "agent"; "analysis"; "decision"; "inputs"; "metadata";
       "timestamp"; "version"]%string.
Proof. by vm_compute. Qed.

(** The text hashed for the example trace: the nested objects are empty. *)
Example canonical_example_trace :
  let q := JSON.QuoteJSONString in
  JSON.stringify (obj_of_trace example_trace)
    (Array_sort (Object_keys (obj_of_trace example_trace)))
  = js "{" ++ q (js "action") ++ js ":{}," ++ q (js "agent") ++ js ":"
    ++ q (js "AgentShield") ++ js "," ++ q (js "analysis") ++ js ":{},"
    ++ q (js "decision") ++ js ":{}," ++ q (js "inputs") ++ js ":{},"
    ++ q (js "metadata") ++ js ":{}," ++ q (js "timestamp")
    ++ js ":1700000000000," ++ q (js "version") ++ js ":" ++ q (js "1.0.0")
    ++ js "}".
Proof. by vm_compute. Qed.

Example hashTrace_example_trace :
  hashTrace (obj_of_trace example_trace)
  = js "7d1d58683a15e1be2b3de9003627e87f25bb2c4d67c890d8ae89c1967a1fc670".
Proof. by vm_compute. Qed.

(** [new] and a caller's allocation of the example trace give
    [example_shield] and [example_world]; one commitment of the example
    decision gives [committed_world]. *)
Example example_world_built :
  (this ← SolprismShield.new default_config; _ ← alloc (CTrace example_trace);
   mret this) empty_world
  = Some (example_shield, example_world).
Proof. by vm_compute. Qed.

Example committed_world_built :
  one_commitment empty_world = Some (example_shield, committed_world).
Proof. by vm_compute. Qed.

(** ** The sort order and association lists *)

Lemma str_leb_total x y : str_leb x y = true \/ str_leb y x = true.
Proof.
  revert y; induction x as [|a x IH]; intros [|b y]; simpl; auto.
  destruct (N.ltb_spec a b), (N.ltb_spec b a); auto; lia.
Qed.

Lemma str_leb_antisym x y : str_leb x y = true -> str_leb y x = true -> x = y.
Proof.
  revert y; induction x as [|a x IH]; intros [|b y]; simpl; try done.
  destruct (N.ltb_spec a b), (N.ltb_spec b a); try done; try lia.
  intros. f_equal; [lia | auto].
Qed.

Lemma str_leb_trans x y z :
  str_leb x y = true -> str_leb y z = true -> str_leb x z = true.
Proof.
  revert y z; induction x as [|a x IH]; intros [|b y] [|c z]; simpl; try done.
  destruct (N.ltb_spec a b), (N.ltb_spec b a), (N.ltb_spec b c),
    (N.ltb_spec c b), (N.ltb_spec a c), (N.ltb_spec c a); try done; try lia.
  apply IH.
Qed.

#[global] Instance str_le_trans : Transitive str_le.
Proof. intros x y z. apply str_leb_trans. Qed.

#[global] Instance str_le_antisym : AntiSymm (=) str_le.
Proof. intros x y. apply str_leb_antisym. Qed.

#[global] Instance str_le_total : Total str_le.
Proof. intros x y. apply str_leb_total. Qed.

(** Sorting forgets the order the keys came in. *)
Lemma Array_sort_Permutation l1 l2 :
  Permutation l1 l2 -> Array_sort l1 = Array_sort l2.
Proof.
  intros Hp. unfold Array_sort.
  apply (Sorted_unique str_le); try apply Sorted_merge_sort; try apply _.
  by rewrite !merge_sort_Permutation.
Qed.

Lemma assoc_Some {A} k (x : A) l :
  NoDup (List.map fst l) -> (assoc k l = Some x <-> (k, x) ∈ l).
Proof.
  induction l as [|[k' y] l IH]; simpl; intros Hnd.
  - split; [done | by intros ?%elem_of_nil].
  - apply NoDup_cons in Hnd as [Hk Hnd]. rewrite elem_of_cons.
    destruct (decide (k = k')) as [->|Hne].
    + split; [intros [= ->]; by left|].
      intros [[= ->]|Hin]; [done|]. exfalso. apply Hk.
      apply list_elem_of_In, in_map_iff. exists (k', x).
      split; [done|]. by apply list_elem_of_In.
    + rewrite IH by done. split; [by right|]. intros [[= ? ?]|?]; done.
Qed.

Lemma assoc_Permutation {A} k (l l' : list (jsstring * A)) :
  NoDup (List.map fst l) -> Permutation l l' -> assoc k l = assoc k l'.
Proof.
  intros Hnd Hp.
  assert (Hnd' : NoDup (List.map fst l')).
  { pose proof (Permutation_map fst Hp) as Hp'. by rewrite <- Hp'. }
  destruct (assoc k l) as [x|] eqn:E1.
  - symmetry. apply assoc_Some; [done|]. rewrite <- Hp. by apply assoc_Some.
  - destruct (assoc k l') as [x|] eqn:E2; [|done].
    apply assoc_Some in E2; [|done]. rewrite <- Hp in E2.
    apply assoc_Some in E2; [|done]. congruence.
Qed.

Lemma assoc_None {A} k (l : list (jsstring * A)) :
  k ∉ List.map fst l -> assoc k l = None.
Proof.
  induction l as [|[k' y] l IH]; simpl; [done|].
  rewrite not_elem_of_cons. intros [Hne Hk].
  destruct (decide (k = k')); [done | auto].
Qed.

(** ** Serialization *)

Lemma members_ext K strs strs' :
  (forall k, k ∈ K -> assoc k strs = assoc k strs') ->
  JSON.members K strs = JSON.members K strs'.
Proof.
  intros H. unfold JSON.members. do 3 f_equal.
  induction K as [|P K IH]; [done|]. cbn [omap list_omap].
  rewrite H by left. rewrite IH; [done|]. intros k Hk. apply H. by right.
Qed.

(** An object none of whose keys is listed serializes as the empty object. *)
Lemma SerializeJSONObject_hidden K (o : object) :
  Forall (fun P => P ∉ Object_keys o) K -> JSON.SerializeJSONObject K o = js "{}".
Proof.
  intros H. unfold JSON.SerializeJSONObject.
  rewrite (members_ext K _ []).
  - unfold JSON.members. replace (omap _ K) with (@nil jsstring); [done|].
    clear H. induction K as [|P K IH]; [done|]. cbn [omap list_omap assoc]. done.
  - intros k Hk. rewrite Forall_forall in H. apply assoc_None.
    rewrite List.map_map. erewrite List.map_ext; [by apply H|]. by intros [? ?].
Qed.

Lemma SerializeJSONProperty_reordered K :
  forall v1 v2, reordered v1 v2 ->
  JSON.SerializeJSONProperty K v1 = JSON.SerializeJSONProperty K v2.
Proof.
  fix IH 3. intros v1 v2 H.
  destruct H as [| | | | |xs ys Hxs|o1 o2 o2' Hnd Hf Hp]; try reflexivity.
  - simpl. do 4 f_equal.
    induction Hxs as [|x y xs ys Hxy Hrest IHl]; simpl; [done|].
    by rewrite (IH _ _ Hxy), IHl.
  - simpl. f_equal. apply members_ext. intros k _.
    assert (E : List.map (fun '(k, x) => (k, JSON.SerializeJSONProperty K x)) o1
              = List.map (fun '(k, x) => (k, JSON.SerializeJSONProperty K x)) o2).
    { clear Hnd Hp.
      induction Hf as [|[k1 x1] [k2 x2] o1 o2 [Hk Hx] Hrest IHl]; simpl; [done|].
      simpl in Hk, Hx. by rewrite (IH _ _ Hx), IHl, Hk. }
    rewrite E. apply assoc_Permutation; [|by apply Permutation_map].
    rewrite <- E. rewrite List.map_map.
    erewrite List.map_ext; [exact Hnd|]. by intros [? ?].
Qed.

Lemma reordered_keys o1 o2 :
  reordered (VObj o1) (VObj o2) -> Permutation (Object_keys o1) (Object_keys o2).
Proof.
  intros H. inversion H as [| | | | | |? o ? Hnd Hf Hp]; subst.
  unfold Object_keys. rewrite <- (Permutation_map fst Hp).
  replace (List.map fst o1) with (List.map fst o); [done|].
  clear -Hf. induction Hf as [|p q ? ? [Hk _] _ IHl]; simpl; [done|].
  by rewrite Hk, IHl.
Qed.

(** Writing every object backwards is a reordering. *)
Lemma reordered_reverse_keys :
  forall v, distinct_keys v = true -> reordered v (reverse_keys v).
Proof.
  fix IH 1. intros [| | | | |elems|props] Hd; try constructor.
  - simpl in Hd. induction elems as [|x elems IHl]; simpl; [constructor|].
    simpl in Hd. apply andb_prop in Hd as [Hx Hl].
    constructor; [by apply IH | by apply IHl].
  - simpl in Hd. apply andb_prop in Hd as [Hnd Hl].
    apply bool_decide_eq_true in Hnd. simpl.
    eapply reordered_obj; [exact Hnd| |apply Permutation_rev].
    clear Hnd. induction props as [|[k x] props IHl]; simpl; [constructor|].
    simpl in Hl. apply andb_prop in Hl as [Hx Hl].
    constructor; [split; [done | by apply IH] | by apply IHl].
Qed.

(** C3. Order-independence of the hash: two objects with the same content,
    the properties of the trace and of every object nested in it (action,
    inputs, analysis, decision, metadata.custom, the entries of the arrays)
    possibly created in different orders, have the same hash.  The list the
    replacer is built from is sorted, and JSON.stringify reads the
    properties of every object in the order of that list. *)
Theorem hashTrace_order_independent (o1 o2 : object) :
  reordered (VObj o1) (VObj o2) -> hashTrace o1 = hashTrace o2.
Proof.
  intros H. unfold hashTrace, JSON.stringify.
  rewrite (Array_sort_Permutation _ _ (reordered_keys _ _ H)).
  set (K := Array_sort (Object_keys o2)).
  pose proof (SerializeJSONProperty_reordered K _ _ H) as E.
  change (Some (JSON.SerializeJSONObject K o1) = Some (JSON.SerializeJSONObject K o2))
    in E.
  congruence.
Qed.

Lemma hashTrace_order_independent_witness :
  props_of (reverse_keys (VObj (obj_of_trace example_trace)))
    <> obj_of_trace example_trace
  /\ hashTrace (obj_of_trace example_trace)
     = hashTrace (props_of (reverse_keys (VObj (obj_of_trace example_trace)))).
Proof.
  split; [by vm_compute|].
  apply hashTrace_order_independent.
  apply (reordered_reverse_keys (VObj (obj_of_trace example_trace))).
  by vm_compute.
Defined.

(** ** What the hash covers *)

Ltac hidden :=
  apply SerializeJSONObject_hidden; apply (bool_decide_unpack _); by vm_compute.

Lemma obj_of_trace_keys t : Object_keys (obj_of_trace t) = List.map fst (top_level t).
Proof. destruct t as [? ? ? ? ? ? ? [m|]]; reflexivity. Qed.

Lemma sorted_keys t :
  Array_sort (Object_keys (obj_of_trace t))
  = [js "action"; js "agent"; js "analysis"; js "decision"; js "inputs"]
    ++ match ReasoningTrace.metadata t with
       | Some _ => [js "metadata"]
       | None => []
       end
    ++ [js "timestamp"; js "version"].
Proof.
  rewrite obj_of_trace_keys. destruct t as [? ? ? ? ? ? ? [m|]]; by vm_compute.
Qed.

(** Under the sorted keys of a trace, every nested object is written [{}]. *)
Lemma obj_of_trace_serialized t :
  List.map (fun '(k, x) =>
              (k, JSON.SerializeJSONProperty
                    (Array_sort (Object_keys (obj_of_trace t))) x))
    (obj_of_trace t)
  = top_level t.
Proof.
  rewrite sorted_keys.
  assert (Hobj : forall K o, JSON.SerializeJSONProperty K (VObj o)
                             = Some (JSON.SerializeJSONObject K o)) by done.
  destruct t as [v a ts [ty de sg] i an d m]; unfold obj_of_trace, top_level.
  cbn [ReasoningTrace.version ReasoningTrace.agent ReasoningTrace.timestamp
       ReasoningTrace.action ReasoningTrace.inputs ReasoningTrace.analysis
       ReasoningTrace.decision ReasoningTrace.metadata].
  rewrite List.map_app. f_equal.
  - cbn [List.map]. rewrite !Hobj. repeat f_equal.
    all: destruct m; try destruct sg; hidden.
  - destruct m as [[[?|] [?|] [?|] [?|]]|]; cbn [optional fmap option_fmap option_map List.map];
      [rewrite Hobj; repeat f_equal; hidden ..|done].
Qed.

(** The hash of a trace is a function of its version, agent and timestamp
    and of whether it has metadata. *)
Lemma hashTrace_top_level t :
  hashTrace (obj_of_trace t)
  = sha256_hex (JSON.members (Array_sort (List.map fst (top_level t))) (top_level t)).
Proof.
  unfold hashTrace, JSON.stringify, JSON.SerializeJSONObject.
  by rewrite obj_of_trace_serialized, obj_of_trace_keys.
Qed.

(** C2. The hash is not sensitive to every leaf: changing
    [decision.confidence] of any trace leaves its hash unchanged, the
    nested objects being written [{}] under a replacer that lists only the
    top-level keys.  On the documented example, the tampered copy differs
    from the committed trace and [verify] still answers true. *)
Theorem hashTrace_blind_to_decision_confidence :
  (forall t c,
     hashTrace (obj_of_trace (with_decision_confidence c t))
     = hashTrace (obj_of_trace t))
  /\ Decision.confidence (ReasoningTrace.decision tampered_trace)
     <> Decision.confidence (ReasoningTrace.decision example_trace)
  /\ hashTrace (obj_of_trace tampered_trace) = hashTrace (obj_of_trace example_trace)
  /\ fst <$> verify_tampered_copy empty_world = Some true.
Proof.
  assert (H : forall t c,
            hashTrace (obj_of_trace (with_decision_confidence c t))
            = hashTrace (obj_of_trace t)).
  { intros t c. by rewrite !hashTrace_top_level. }
  split; [exact H|]. split; [|split; [apply H | by vm_compute]].
  intros E. apply (f_equal (PrimFloat.leb 80)) in E. by vm_compute in E.
Qed.

(** ** The trade trace builder *)

Lemma approved_iff d : approved d = true <-> Approved d.
Proof.
  unfold approved, Approved. rewrite andb_true_iff.
  assert (H1 : forallb PredictionStage.passed (TradeDecision.predictionStages d) = true
               <-> Forall (fun s => PredictionStage.passed s = true)
                     (TradeDecision.predictionStages d)).
  { induction (TradeDecision.predictionStages d) as [|s l IH]; simpl.
    - split; [constructor | done].
    - rewrite andb_true_iff, IH. split.
      + intros [? ?]. by constructor.
      + intros H. by inversion H. }
  rewrite H1. clear H1.
  destruct (TradeDecision.scamCheck d) as [sc|].
  - rewrite negb_true_iff. split.
    + intros [? ?]. split; [done|]. right. by exists sc.
    + intros [? [?|(sc' & [= <-] & ?)]]; done.
  - split; intros [? ?]; split; try done. by left.
Qed.

Lemma not_approved_iff d : approved d = false <-> ~ Approved d.
Proof. rewrite <- approved_iff. by destruct (approved d). Qed.

Lemma trade_action_type clock d :
  TraceAction.type (ReasoningTrace.action (createTradeReasoningTrace clock d))
  = if approved d then js "trade" else js "rejection".
Proof. reflexivity. Qed.

Lemma trade_approved_flag clock d :
  (fun m => assoc (js "approved") <$> Metadata.custom m)
    <$> ReasoningTrace.metadata (createTradeReasoningTrace clock d)
  = Some (Some (Some (SBool (approved d)))).
Proof. reflexivity. Qed.

Lemma trade_riskAssessment clock d :
  Decision.riskAssessment (ReasoningTrace.decision (createTradeReasoningTrace clock d))
  = if approved d then
      (if PrimFloat.leb 80 (TradeDecision.confidence d) then js "low" else js "moderate")
    else js "high".
Proof. reflexivity. Qed.

Lemma trade_alternatives clock d :
  Analysis.alternativesConsidered
    (ReasoningTrace.analysis (createTradeReasoningTrace clock d))
  = if approved d then
      [{| Alternative.action := js "Reject trade";
          Alternative.reasonRejected :=
            js "All prediction stages passed and scam check is clean" |};
       {| Alternative.action := js "Wait for more confirmations";
          Alternative.reasonRejected :=
            js "Confidence at " ++ Number_toString (TradeDecision.confidence d)
            ++ js "%, all "
            ++ Number_toString (Number_of_nat (length (TradeDecision.predictionStages d)))
            ++ js " stages confirmed" |}]
    else
      [{| Alternative.action :=
            js "Execute " ++ TradeAction_string (TradeDecision.action d) ++ js " anyway";
          Alternative.reasonRejected :=
            if Nat.ltb 0 (length (failedStages d)) then
              Number_toString (Number_of_nat (length (failedStages d)))
              ++ js " prediction stage(s) failed: "
              ++ join (js ", ") (List.map PredictionStage.name (failedStages d))
            else js "Scam check flagged this token" |}].
Proof. reflexivity. Qed.

(** C4. The builder computes [approved] as: every stage passed, and no scam
    check was supplied or it did not flag the token; [action.type] is
    ["trade"] exactly when approved and ["rejection"] exactly when not. *)
Theorem trade_type_iff_approved (clock : Clock) (d : TradeDecision.t) :
  let t := createTradeReasoningTrace clock d in
  (exists b,
     (fun m => assoc (js "approved") <$> Metadata.custom m)
       <$> ReasoningTrace.metadata t = Some (Some (Some (SBool b)))
     /\ (b = true <-> Approved d))
  /\ (TraceAction.type (ReasoningTrace.action t) = js "trade" <-> Approved d)
  /\ (TraceAction.type (ReasoningTrace.action t) = js "rejection" <-> ~ Approved d).
Proof.
  cbv zeta. rewrite trade_action_type, trade_approved_flag.
  split; [exists (approved d); split; [done | apply approved_iff]|].
  rewrite <- not_approved_iff, <- approved_iff.
  destruct (approved d); split; split; try done; intros E; by vm_compute in E.
Qed.

Lemma trade_type_iff_approved_witness :
  TraceAction.type
    (ReasoningTrace.action (createTradeReasoningTrace example_clock example_decision))
  = js "trade"
  /\ TraceAction.type
       (ReasoningTrace.action (createTradeReasoningTrace example_clock example_rejected))
     = js "rejection"
  /\ TraceAction.type
       (ReasoningTrace.action (createTradeReasoningTrace example_clock example_flagged))
     = js "rejection".
Proof.
  split; [|split].
  - apply (proj1 (proj2 (trade_type_iff_approved example_clock example_decision))).
    apply approved_iff. by vm_compute.
  - apply (proj2 (proj2 (trade_type_iff_approved example_clock example_rejected))).
    apply not_approved_iff. by vm_compute.
  - apply (proj2 (proj2 (trade_type_iff_approved example_clock example_flagged))).
    apply not_approved_iff. by vm_compute.
Defined.

Lemma SFcompare_Lt_Gt x y : SFcompare x y = Some Lt -> SFcompare y x = Some Gt.
Proof.
  destruct x as [s1| s1| |s1 m1 e1], y as [s2|s2| |s2 m2 e2]; unfold SFcompare;
    try destruct s1; try destruct s2; try discriminate; try reflexivity;
    change (Pos.compare_cont Eq m2 m1) with (Pos.compare m2 m1);
    change (Pos.compare_cont Eq m1 m2) with (Pos.compare m1 m2);
    rewrite (Z.compare_antisym e1 e2), (Pos.compare_antisym m1 m2);
    destruct (e1 ?= e2)%Z; simpl; try discriminate; try reflexivity;
    destruct (m1 ?= m2)%positive; simpl; try discriminate; reflexivity.
Qed.

(** On numbers, [x < y] excludes [x >= y]. *)
Lemma ltb_not_geb (x y : number) :
  PrimFloat.ltb x y = true -> PrimFloat.leb y x = false.
Proof.
  rewrite ltb_spec, leb_spec. unfold SFltb, SFleb.
  destruct (SFcompare (Prim2SF x) (Prim2SF y)) as [[| |]|] eqn:E; try discriminate.
  intros _. by rewrite (SFcompare_Lt_Gt _ _ E).
Qed.

(** C5. [decision.riskAssessment] is ["low"] for an approved decision with
    [confidence >= 80], ["moderate"] for an approved one with
    [confidence < 80], and ["high"] for one that is not approved; the
    documented decision (three passed stages, a safe scam check, confidence
    82) gives [action.type] ["trade"] and the risk ["low"]. *)
Theorem riskAssessment_by_threshold (clock : Clock) (d : TradeDecision.t) :
  let t := createTradeReasoningTrace clock d in
  let risk := Decision.riskAssessment (ReasoningTrace.decision t) in
  (Approved d -> PrimFloat.leb 80 (TradeDecision.confidence d) = true ->
   risk = js "low")
  /\ (Approved d -> PrimFloat.ltb (TradeDecision.confidence d) 80 = true ->
      risk = js "moderate")
  /\ (~ Approved d -> risk = js "high")
  /\ TraceAction.type
       (ReasoningTrace.action (createTradeReasoningTrace clock example_decision))
     = js "trade"
  /\ Decision.riskAssessment
       (ReasoningTrace.decision (createTradeReasoningTrace clock example_decision))
     = js "low".
Proof.
  cbv zeta. rewrite trade_riskAssessment. repeat split.
  - intros Ha%approved_iff Hc. by rewrite Ha, Hc.
  - intros Ha%approved_iff Hc%ltb_not_geb. by rewrite Ha, Hc.
  - intros Ha%not_approved_iff. by rewrite Ha.
Qed.

Lemma riskAssessment_by_threshold_witness :
  Decision.riskAssessment
    (ReasoningTrace.decision (createTradeReasoningTrace example_clock example_decision))
  = js "low"
  /\ Decision.riskAssessment
       (ReasoningTrace.decision
          (createTradeReasoningTrace example_clock
             (with_confidence 79.5%float example_decision)))
     = js "moderate"
  /\ Decision.riskAssessment
       (ReasoningTrace.decision (createTradeReasoningTrace example_clock example_rejected))
     = js "high".
Proof.
  split; [|split].
  - apply (proj1 (riskAssessment_by_threshold example_clock example_decision)).
    + apply approved_iff. by vm_compute.
    + by vm_compute.
  - apply (proj1 (proj2 (riskAssessment_by_threshold example_clock
                           (with_confidence 79.5%float example_decision)))).
    + apply approved_iff. by vm_compute.
    + by vm_compute.
  - apply (proj1 (proj2 (proj2
             (riskAssessment_by_threshold example_clock example_rejected)))).
    apply not_approved_iff. by vm_compute.
Defined.

(** C6. An approved decision has exactly two alternatives, "Reject trade"
    and "Wait for more confirmations", the second citing the confidence and
    the number of stages; a decision that is not approved has exactly one,
    whose reason names the failed stages when there is one and otherwise
    cites the scam check. *)
Theorem alternatives_by_approval (clock : Clock) (d : TradeDecision.t) :
  let alternatives :=
    Analysis.alternativesConsidered
      (ReasoningTrace.analysis (createTradeReasoningTrace clock d)) in
  (Approved d ->
   alternatives =
     [{| Alternative.action := js "Reject trade";
         Alternative.reasonRejected :=
           js "All prediction stages passed and scam check is clean" |};
      {| Alternative.action := js "Wait for more confirmations";
         Alternative.reasonRejected :=
           js "Confidence at " ++ Number_toString (TradeDecision.confidence d)
           ++ js "%, all "
           ++ Number_toString (Number_of_nat (length (TradeDecision.predictionStages d)))
           ++ js " stages confirmed" |}])
  /\ (~ Approved d ->
      exists alt,
        alternatives = [alt]
        /\ Alternative.action alt
           = js "Execute " ++ TradeAction_string (TradeDecision.action d)
             ++ js " anyway"
        /\ (failedStages d <> [] ->
            Alternative.reasonRejected alt
            = Number_toString (Number_of_nat (length (failedStages d)))
              ++ js " prediction stage(s) failed: "
              ++ join (js ", ") (List.map PredictionStage.name (failedStages d)))
        /\ (failedStages d = [] ->
            Alternative.reasonRejected alt = js "Scam check flagged this token")).
Proof.
  cbv zeta. rewrite trade_alternatives. split.
  - intros Ha%approved_iff. by rewrite Ha.
  - intros Ha%not_approved_iff. rewrite Ha. eexists. split; [done|].
    split; [done|]. cbn [Alternative.reasonRejected].
    destruct (failedStages d); [by split | by split].
Qed.

Lemma alternatives_by_approval_witness :
  length (Analysis.alternativesConsidered
            (ReasoningTrace.analysis
               (createTradeReasoningTrace example_clock example_decision))) = 2%nat
  /\ (exists alt,
        Analysis.alternativesConsidered
          (ReasoningTrace.analysis
             (createTradeReasoningTrace example_clock example_rejected)) = [alt]
        /\ Alternative.reasonRejected alt
           = js "1 prediction stage(s) failed: 5min-validate")
  /\ (exists alt,
        Analysis.alternativesConsidered
          (ReasoningTrace.analysis
             (createTradeReasoningTrace example_clock example_flagged)) = [alt]
        /\ Alternative.reasonRejected alt = js "Scam check flagged this token").
Proof.
  split; [|split].
  - rewrite (proj1 (alternatives_by_approval example_clock example_decision));
      [done|]. apply approved_iff. by vm_compute.
  - destruct (proj2 (alternatives_by_approval example_clock example_rejected))
      as (alt & E & _ & Hfailed & _).
    { apply not_approved_iff. by vm_compute. }
    exists alt. split; [exact E|]. rewrite Hfailed; by vm_compute.
  - destruct (proj2 (alternatives_by_approval example_clock example_flagged))
      as (alt & E & _ & _ & Hscam).
    { apply not_approved_iff. by vm_compute. }
    exists alt. split; [exact E|]. by apply Hscam.
Defined.

(** ** The firewall trace builder *)

(** C7. A firewall trace has exactly five observations: the transaction
    type, the simulation status (passed, failed, or skipped when no
    simulation was run), the spend-limit status, the slippage status and
    the program-allowlist status, each as the parameters give it; it has a
    single alternative that is the inverse of [approved], and the fixed
    confidence 90 with risk ["low"] when approved, 95 with risk ["high"]
    when not: the parameters hold no confidence for it to depend on. *)
Theorem firewall_trace_shape (clock : Clock) (p : FirewallParams.t) :
  let t := createFirewallTrace clock p in
  Analysis.observations (ReasoningTrace.analysis t)
  = [js "Transaction type: " ++ FirewallParams.transactionType p;
     js "Simulation: "
     ++ (if FirewallParams.simulated p then
           (if FirewallParams.simulationPassed p then js "✅ PASS" else js "❌ FAIL")
         else js "⏭️ SKIPPED");
     js "Spend limit: "
     ++ (if FirewallParams.spendLimitOk p then js "✅ OK" else js "❌ EXCEEDED");
     js "Slippage: "
     ++ (if FirewallParams.slippageOk p then js "✅ OK" else js "❌ EXCEEDED");
     js "Program allowlist: "
     ++ (if FirewallParams.programAllowed p then js "✅ ALLOWED" else js "❌ BLOCKED")]
  /\ length (Analysis.observations (ReasoningTrace.analysis t)) = 5%nat
  /\ (FirewallParams.approved p = true ->
      Analysis.alternativesConsidered (ReasoningTrace.analysis t)
      = [{| Alternative.action := js "Block transaction";
            Alternative.reasonRejected := js "All firewall checks passed" |}]
      /\ Decision.confidence (ReasoningTrace.decision t) = 90%float
      /\ Decision.riskAssessment (ReasoningTrace.decision t) = js "low")
  /\ (FirewallParams.approved p = false ->
      Analysis.alternativesConsidered (ReasoningTrace.analysis t)
      = [{| Alternative.action := js "Allow transaction";
            Alternative.reasonRejected := FirewallParams.reason p |}]
      /\ Decision.confidence (ReasoningTrace.decision t) = 95%float
      /\ Decision.riskAssessment (ReasoningTrace.decision t) = js "high").
Proof.
  cbv zeta. split; [reflexivity|]. split; [reflexivity|].
  unfold createFirewallTrace.
  cbn [ReasoningTrace.analysis ReasoningTrace.decision Analysis.alternativesConsidered
       Decision.confidence Decision.riskAssessment].
  split; intros ->; split_and!; reflexivity.
Qed.

Lemma firewall_trace_shape_witness :
  Decision.confidence
    (ReasoningTrace.decision (createFirewallTrace example_clock (example_params true)))
  = 90%float
  /\ Decision.confidence
       (ReasoningTrace.decision
          (createFirewallTrace example_clock (example_params false)))
     = 95%float
  /\ Analysis.observations
       (ReasoningTrace.analysis
          (createFirewallTrace example_clock (example_params false)))
     = [js "Transaction type: swap"; js "Simulation: ❌ FAIL"; js "Spend limit: ✅ OK";
        js "Slippage: ✅ OK"; js "Program allowlist: ✅ ALLOWED"].
Proof.
  split; [|split].
  - refine (proj1 (proj2 (proj1 (proj2 (proj2
              (firewall_trace_shape example_clock (example_params true)))) _))).
    by vm_compute.
  - refine (proj1 (proj2 (proj2 (proj2 (proj2
              (firewall_trace_shape example_clock (example_params false)))) _))).
    by vm_compute.
  - rewrite (proj1 (firewall_trace_shape example_clock (example_params false))).
    by vm_compute.
Defined.

(** ** The commitment manager *)

Lemma commit_spec this trace tr now w elems :
  heap w !! trace = Some (CTrace tr) ->
  heap w !! SolprismShield.commitments this = Some (CArray elems) ->
  exists line,
    SolprismShield.commit this trace now w
    = Some (length (heap w),
            {| heap :=
                 <[SolprismShield.commitments this := CArray (elems ++ [length (heap w)])]>
                   (heap w ++ [CResult {| CommitmentResult.hash :=
                                            hashTrace (obj_of_trace tr);
                                          CommitmentResult.trace := trace;
                                          CommitmentResult.timestamp := now |}]);
               console := console w ++ [line] |}).
Proof.
  intros Ht Ha. eexists.
  unfold SolprismShield.commit, push, load_trace, load_array, load, store, alloc,
    console_log, mbind, M_bind, mret, M_ret.
  rewrite Ht. cbn [heap console].
  rewrite (lookup_app_l_Some _ _ _ _ Ha). cbn [heap console].
  rewrite (lookup_app_l_Some _ _ _ _ Ha). reflexivity.
Qed.

(** What a commit leaves in the heap: a new CommitmentResult at the end,
    one more entry in the history, every other object as it was. *)
Lemma commit_frame this trace tr now w elems :
  heap w !! trace = Some (CTrace tr) ->
  heap w !! SolprismShield.commitments this = Some (CArray elems) ->
  exists result w',
    SolprismShield.commit this trace now w = Some (result, w')
    /\ heap w !! result = None
    /\ heap w' !! result
       = Some (CResult {| CommitmentResult.hash := hashTrace (obj_of_trace tr);
                          CommitmentResult.trace := trace;
                          CommitmentResult.timestamp := now |})
    /\ heap w' !! SolprismShield.commitments this = Some (CArray (elems ++ [result]))
    /\ (forall l c, l <> SolprismShield.commitments this ->
                    heap w !! l = Some c -> heap w' !! l = Some c).
Proof.
  intros Ht Ha. destruct (commit_spec this trace tr now w elems Ht Ha) as [line E].
  eexists _, _. split; [exact E|]. cbn [heap].
  pose proof (lookup_lt_Some _ _ _ Ha) as Hlt.
  split; [by apply lookup_ge_None_2|]. split; [|split].
  - rewrite list_lookup_insert_ne by lia. by rewrite lookup_app_r, Nat.sub_diag.
  - apply list_lookup_insert_eq. rewrite length_app. lia.
  - intros l c Hne Hl. rewrite list_lookup_insert_ne by done.
    by apply lookup_app_l_Some.
Qed.

Lemma verify_spec this hash trace tr w :
  heap w !! trace = Some (CTrace tr) ->
  exists line,
    SolprismShield.verify this hash trace w
    = Some (bool_decide (hashTrace (obj_of_trace tr) = hash),
            {| heap := heap w; console := console w ++ [line] |}).
Proof.
  intros Ht. eexists.
  unfold SolprismShield.verify, load_trace, load, console_log, mbind, M_bind,
    mret, M_ret.
  rewrite Ht. reflexivity.
Qed.

Lemma getCommitments_spec this w elems :
  heap w !! SolprismShield.commitments this = Some (CArray elems) ->
  SolprismShield.getCommitments this w
  = Some (length (heap w),
          {| heap := heap w ++ [CArray elems]; console := console w |}).
Proof.
  intros Ha.
  unfold SolprismShield.getCommitments, load_array, load, alloc, mbind, M_bind,
    mret, M_ret.
  by rewrite Ha.
Qed.

(** C1. Every CommitmentResult the manager returns holds the hash of the
    trace that was committed.  For [commit(t)]: the result refers to the
    very object [t] that was passed, [t] is unchanged, and the hash of the
    result is [hashTrace(t)], the SHA-256 digest of the JSON text of [t]
    under its sorted keys.  For the two convenience methods the same holds
    of the trace the builder returned.  In each case [verify] on the hash
    and the trace of the result answers true, and on any other hash with
    that trace it answers false. *)
Theorem commit_hash_is_hashTrace (this : SolprismShield.t) (w : World)
    (elems : list loc) :
  heap w !! SolprismShield.commitments this = Some (CArray elems) ->
  (forall trace tr now,
     heap w !! trace = Some (CTrace tr) ->
     exists result w' r w'',
       SolprismShield.commit this trace now w = Some (result, w')
       /\ heap w' !! result = Some (CResult r)
       /\ CommitmentResult.trace r = trace
       /\ heap w' !! trace = Some (CTrace tr)
       /\ CommitmentResult.hash r = hashTrace (obj_of_trace tr)
       /\ CommitmentResult.hash r
          = sha256_hex (JSON.stringify (obj_of_trace tr)
                          (Array_sort (Object_keys (obj_of_trace tr))))
       /\ SolprismShield.verify this (CommitmentResult.hash r)
            (CommitmentResult.trace r) w' = Some (true, w'')
       /\ forall h, fst <$> SolprismShield.verify this h (CommitmentResult.trace r) w'
                    = Some (bool_decide (h = CommitmentResult.hash r)))
  /\ (forall d clock now,
        let t := createTradeReasoningTrace clock d in
        exists result w' r w'',
          SolprismShield.commitTradeDecision this d clock now w = Some (result, w')
          /\ heap w' !! result = Some (CResult r)
          /\ heap w' !! CommitmentResult.trace r = Some (CTrace t)
          /\ CommitmentResult.hash r = hashTrace (obj_of_trace t)
          /\ SolprismShield.verify this (CommitmentResult.hash r)
               (CommitmentResult.trace r) w' = Some (true, w''))
  /\ (forall p clock now,
        let t := createFirewallTrace clock p in
        exists result w' r w'',
          SolprismShield.commitFirewallDecision this p clock now w = Some (result, w')
          /\ heap w' !! result = Some (CResult r)
          /\ heap w' !! CommitmentResult.trace r = Some (CTrace t)
          /\ CommitmentResult.hash r = hashTrace (obj_of_trace t)
          /\ SolprismShield.verify this (CommitmentResult.hash r)
               (CommitmentResult.trace r) w' = Some (true, w'')).
Proof.
  intros Ha.
  assert (Hcommit : forall trace tr now w0 elems0,
    heap w0 !! trace = Some (CTrace tr) ->
    heap w0 !! SolprismShield.commitments this = Some (CArray elems0) ->
    exists result w' r w'',
      SolprismShield.commit this trace now w0 = Some (result, w')
      /\ heap w' !! result = Some (CResult r)
      /\ CommitmentResult.trace r = trace
      /\ heap w' !! trace = Some (CTrace tr)
      /\ CommitmentResult.hash r = hashTrace (obj_of_trace tr)
      /\ CommitmentResult.hash r
         = sha256_hex (JSON.stringify (obj_of_trace tr)
                         (Array_sort (Object_keys (obj_of_trace tr))))
      /\ SolprismShield.verify this (CommitmentResult.hash r)
           (CommitmentResult.trace r) w' = Some (true, w'')
      /\ forall h, fst <$> SolprismShield.verify this h (CommitmentResult.trace r) w'
                   = Some (bool_decide (h = CommitmentResult.hash r))).
  { intros trace tr now w0 elems0 Ht Ha0.
    destruct (commit_frame this trace tr now w0 elems0 Ht Ha0)
      as (result & w' & E & _ & Hr & _ & Hframe).
    assert (Ht' : heap w' !! trace = Some (CTrace tr)).
    { apply Hframe; [|done]. intros ->. congruence. }
    destruct (verify_spec this (hashTrace (obj_of_trace tr)) trace tr w' Ht')
      as [line Hv].
    exists result, w'. eexists _, _. split; [exact E|]. split; [exact Hr|].
    cbn [CommitmentResult.trace CommitmentResult.hash].
    split; [done|]. split; [exact Ht'|]. split; [done|]. split; [done|].
    split.
    - rewrite Hv. by rewrite bool_decide_eq_true_2.
    - intros h. destruct (verify_spec this h trace tr w' Ht') as [line' Hv'].
      rewrite Hv'. cbn. f_equal. apply bool_decide_ext. split; congruence. }
  assert (Hfresh : forall t now,
    exists result w' r w'',
      (trace ← alloc (CTrace t); SolprismShield.commit this trace now) w
      = Some (result, w')
      /\ heap w' !! result = Some (CResult r)
      /\ heap w' !! CommitmentResult.trace r = Some (CTrace t)
      /\ CommitmentResult.hash r = hashTrace (obj_of_trace t)
      /\ SolprismShield.verify this (CommitmentResult.hash r)
           (CommitmentResult.trace r) w' = Some (true, w'')).
  { intros t now. unfold mbind at 1, M_bind at 1, alloc at 1.
    edestruct (Hcommit (length (heap w)) t now
                 {| heap := heap w ++ [CTrace t]; console := console w |} elems)
      as (result & w' & r & w'' & E & Hr & Htr & Ht & Hh & _ & Hv & _); cbn [heap].
    - by rewrite lookup_app_r, Nat.sub_diag.
    - by apply lookup_app_l_Some.
    - exists result, w', r, w''. rewrite Htr. rewrite Htr in Hv. by split_and!. }
  split; [|split].
  - intros trace tr now Ht. by apply (Hcommit trace tr now w elems).
  - intros d clock now. cbv zeta. apply Hfresh.
  - intros p clock now. cbv zeta. apply Hfresh.
Qed.

Lemma commit_hash_is_hashTrace_witness :
  exists result w' r w'',
    SolprismShield.commit example_shield 1%nat 1700000000001%float example_world
    = Some (result, w')
    /\ heap w' !! result = Some (CResult r)
    /\ CommitmentResult.trace r = 1%nat
    /\ heap w' !! 1%nat = Some (CTrace example_trace)
    /\ CommitmentResult.hash r = hashTrace (obj_of_trace example_trace)
    /\ CommitmentResult.hash r
       = sha256_hex (JSON.stringify (obj_of_trace example_trace)
                       (Array_sort (Object_keys (obj_of_trace example_trace))))
    /\ SolprismShield.verify example_shield (CommitmentResult.hash r)
         (CommitmentResult.trace r) w' = Some (true, w'')
    /\ forall h,
         fst <$> SolprismShield.verify example_shield h (CommitmentResult.trace r) w'
         = Some (bool_decide (h = CommitmentResult.hash r)).
Proof.
  refine (proj1 (commit_hash_is_hashTrace example_shield example_world [] _)
            1%nat example_trace 1700000000001%float _); reflexivity.
Defined.

(** C10. A commit alters no object that existed, the history array apart:
    the trace passed is unchanged, the CommitmentResult returned holds
    the very reference that was passed, and the entry appended to the
    history is that CommitmentResult. *)
Theorem commit_keeps_trace (this : SolprismShield.t) (trace : loc)
    (tr : ReasoningTrace.t) (now : number) (w : World) (elems : list loc) :
  heap w !! trace = Some (CTrace tr) ->
  heap w !! SolprismShield.commitments this = Some (CArray elems) ->
  exists result w',
    SolprismShield.commit this trace now w = Some (result, w')
    /\ (forall l c, l <> SolprismShield.commitments this ->
                    heap w !! l = Some c -> heap w' !! l = Some c)
    /\ heap w' !! trace = Some (CTrace tr)
    /\ (exists r, heap w' !! result = Some (CResult r)
                  /\ CommitmentResult.trace r = trace)
    /\ heap w' !! SolprismShield.commitments this = Some (CArray (elems ++ [result])).
Proof.
  intros Ht Ha.
  destruct (commit_frame this trace tr now w elems Ht Ha)
    as (result & w' & E & _ & Hr & Ha' & Hframe).
  exists result, w'. split; [exact E|]. split; [exact Hframe|].
  split; [|split; [by eexists|exact Ha']].
  apply Hframe; [|done]. intros ->. congruence.
Qed.

Lemma commit_keeps_trace_witness :
  exists result w',
    SolprismShield.commit example_shield 1%nat 1700000000001%float example_world
    = Some (result, w')
    /\ (forall l c, l <> SolprismShield.commitments example_shield ->
                    heap example_world !! l = Some c -> heap w' !! l = Some c)
    /\ heap w' !! 1%nat = Some (CTrace example_trace)
    /\ (exists r, heap w' !! result = Some (CResult r)
                  /\ CommitmentResult.trace r = 1%nat)
    /\ heap w' !! SolprismShield.commitments example_shield
       = Some (CArray ([] ++ [result])).
Proof.
  by apply (commit_keeps_trace example_shield 1%nat example_trace
              1700000000001%float example_world []).
Defined.

(** ** The history *)

Lemma perform_frame this c w elems :
  heap w !! SolprismShield.commitments this = Some (CArray elems) ->
  call_ok w c ->
  exists results w',
    perform this c w = Some (results, w')
    /\ heap w' !! SolprismShield.commitments this = Some (CArray (elems ++ results))
    /\ length results = commits [c]
    /\ (forall l tr, heap w !! l = Some (CTrace tr) -> heap w' !! l = Some (CTrace tr)).
Proof.
  intros Ha Hok.
  assert (Hcommit : forall trace tr now w0,
    heap w0 !! trace = Some (CTrace tr) ->
    heap w0 !! SolprismShield.commitments this = Some (CArray elems) ->
    exists result w',
      SolprismShield.commit this trace now w0 = Some (result, w')
      /\ heap w' !! SolprismShield.commitments this = Some (CArray (elems ++ [result]))
      /\ (forall l tr, heap w0 !! l = Some (CTrace tr) ->
                       heap w' !! l = Some (CTrace tr))).
  { intros trace tr now w0 Ht Ha0.
    destruct (commit_frame this trace tr now w0 elems Ht Ha0)
      as (result & w' & E & _ & _ & Ha' & Hframe).
    exists result, w'. split; [exact E|]. split; [exact Ha'|].
    intros l tr' Hl. apply Hframe; [|done]. intros ->. congruence. }
  assert (Hfresh : forall t now,
    exists result w',
      (trace ← alloc (CTrace t); SolprismShield.commit this trace now) w
      = Some (result, w')
      /\ heap w' !! SolprismShield.commitments this = Some (CArray (elems ++ [result]))
      /\ (forall l tr, heap w !! l = Some (CTrace tr) ->
                       heap w' !! l = Some (CTrace tr))).
  { intros t now. unfold mbind at 1, M_bind at 1, alloc at 1.
    edestruct (Hcommit (length (heap w)) t now
                 {| heap := heap w ++ [CTrace t]; console := console w |})
      as (result & w' & E & Ha' & Hframe); cbn [heap].
    - by rewrite lookup_app_r, Nat.sub_diag.
    - by apply lookup_app_l_Some.
    - exists result, w'. split; [exact E|]. split; [exact Ha'|].
      intros l tr Hl. apply Hframe. cbn [heap]. by apply lookup_app_l_Some. }
  destruct c as [trace now|hash trace| |decision clock now|params clock now];
    cbn [perform call_ok] in *.
  - destruct Hok as [tr Ht].
    destruct (Hcommit trace tr now w Ht Ha) as (result & w' & E & Ha' & Hkeep).
    exists [result], w'. unfold mbind, M_bind. rewrite E. by split_and!.
  - destruct Hok as [tr Ht]. destruct (verify_spec this hash trace tr w Ht) as [line E].
    eexists [], _. unfold mbind, M_bind. rewrite E.
    split; [done|]. cbn [heap]. rewrite app_nil_r. by split_and!.
  - eexists [], _. unfold mbind, M_bind.
    rewrite (getCommitments_spec this w elems Ha).
    split; [done|]. cbn [heap]. rewrite app_nil_r.
    split; [by apply lookup_app_l_Some|]. split; [done|].
    intros l tr Hl. by apply lookup_app_l_Some.
  - destruct (Hfresh (createTradeReasoningTrace clock decision) now)
      as (result & w' & E & Ha' & Hkeep).
    exists [result], w'. unfold SolprismShield.commitTradeDecision.
    unfold mbind at 1, M_bind at 1. rewrite E. by split_and!.
  - destruct (Hfresh (createFirewallTrace clock params) now)
      as (result & w' & E & Ha' & Hkeep).
    exists [result], w'. unfold SolprismShield.commitFirewallDecision.
    unfold mbind at 1, M_bind at 1. rewrite E. by split_and!.
Qed.

Lemma commits_cons c calls : commits (c :: calls) = (commits [c] + commits calls)%nat.
Proof. unfold commits. simpl. by destruct c. Qed.

Lemma run_spec this calls :
  forall w elems,
    heap w !! SolprismShield.commitments this = Some (CArray elems) ->
    Forall (call_ok w) calls ->
    exists results w',
      run this calls w = Some (results, w')
      /\ heap w' !! SolprismShield.commitments this = Some (CArray (elems ++ results))
      /\ length results = commits calls.
Proof.
  induction calls as [|c calls IH]; intros w elems Ha Hok.
  - exists [], w. by rewrite app_nil_r.
  - apply Forall_cons in Hok as [Hc Hrest].
    destruct (perform_frame this c w elems Ha Hc) as (rs & w1 & E1 & Ha1 & Hn1 & Hkeep).
    destruct (IH w1 (elems ++ rs) Ha1) as (rs' & w2 & E2 & Ha2 & Hn2).
    { eapply Forall_impl; [exact Hrest|]. intros [] H; cbn [call_ok] in *; try done.
      all: destruct H as [tr Ht]; exists tr; by apply Hkeep. }
    exists (rs ++ rs'), w2. cbn [run]. unfold mbind, M_bind. rewrite E1, E2.
    split; [done|]. split; [by rewrite app_assoc|].
    rewrite length_app, commits_cons. lia.
Qed.

(** C8. A new manager has an empty history; after any sequence of calls of
    its methods, [getCommitments()] returns an array whose elements are the
    CommitmentResults the committing calls returned, in call order, as
    many as there were committing calls; further calls only append to it. *)
Theorem commitments_in_call_order (config : Config.t) (calls : list call)
    (w0 : World) :
  Forall (call_ok w0) calls ->
  exists this w1 results w2 snapshot w3,
    SolprismShield.new config w0 = Some (this, w1)
    /\ heap w1 !! SolprismShield.commitments this = Some (CArray [])
    /\ run this calls w1 = Some (results, w2)
    /\ length results = commits calls
    /\ SolprismShield.getCommitments this w2 = Some (snapshot, w3)
    /\ heap w3 !! snapshot = Some (CArray results)
    /\ forall more,
         Forall (call_ok w2) more ->
         exists results' w4,
           run this more w2 = Some (results', w4)
           /\ heap w4 !! SolprismShield.commitments this
              = Some (CArray (results ++ results')).
Proof.
  intros Hok.
  set (this := {| SolprismShield.agentName :=
                    match Config.agentName config with
                    | Some (u :: s) => u :: s
                    | _ => js "AgentShield"
                    end;
                  SolprismShield.commitments := length (heap w0) |}).
  set (w1 := {| heap := heap w0 ++ [CArray []]; console := console w0 |}).
  assert (Ha : heap w1 !! SolprismShield.commitments this = Some (CArray [])).
  { cbn. by rewrite lookup_app_r, Nat.sub_diag. }
  destruct (run_spec this calls w1 [] Ha) as (results & w2 & E & Ha2 & Hn).
  { eapply Forall_impl; [exact Hok|]. intros [] H; cbn [call_ok] in *; try done.
    all: destruct H as [tr Ht]; exists tr; cbn; by apply lookup_app_l_Some. }
  exists this, w1, results, w2. eexists _, _.
  split; [done|]. split; [exact Ha|]. split; [exact E|]. split; [exact Hn|].
  split; [by apply getCommitments_spec|].
  split; [cbn [heap]; by rewrite lookup_app_r, Nat.sub_diag|].
  intros more Hmore.
  destruct (run_spec this more w2 results Ha2 Hmore) as (results' & w4 & E' & Ha4 & _).
  by exists results', w4.
Qed.

Lemma commitments_in_call_order_witness :
  exists this w1 results w2 snapshot w3,
    SolprismShield.new default_config caller_world = Some (this, w1)
    /\ heap w1 !! SolprismShield.commitments this = Some (CArray [])
    /\ run this example_calls w1 = Some (results, w2)
    /\ length results = commits example_calls
    /\ SolprismShield.getCommitments this w2 = Some (snapshot, w3)
    /\ heap w3 !! snapshot = Some (CArray results)
    /\ forall more,
         Forall (call_ok w2) more ->
         exists results' w4,
           run this more w2 = Some (results', w4)
           /\ heap w4 !! SolprismShield.commitments this
              = Some (CArray (results ++ results')).
Proof.
  apply (commitments_in_call_order default_config example_calls caller_world).
  repeat constructor; by exists example_trace.
Defined.

(** ** Snapshots *)

Lemma load_result_spec l w :
  load_result l w = (fun r => (r, w)) <$> result_at (heap w) l.
Proof.
  unfold load_result, load, result_at, mbind, M_bind.
  by destruct (heap w !! l) as [[?|r|?]|].
Qed.

Lemma mapM_load_result elems w :
  mapM load_result elems w = (fun rs => (rs, w)) <$> entries (heap w) elems.
Proof.
  induction elems as [|l elems IH]; [done|].
  change (mapM load_result (l :: elems) w)
    with (match load_result l w with
          | Some (x, w') =>
            match mapM load_result elems w' with
            | Some (k, w'') => Some (x :: k, w'')
            | None => None
            end
          | None => None
          end).
  change (entries (heap w) (l :: elems))
    with (match result_at (heap w) l with
          | Some y =>
            match entries (heap w) elems with
            | Some k => Some (y :: k)
            | None => None
            end
          | None => None
          end).
  rewrite load_result_spec.
  destruct (result_at (heap w) l); [|done]. cbn [fmap option_fmap option_map].
  rewrite IH. by destruct (entries (heap w) elems).
Qed.

Lemma audit_spec this w elems :
  heap w !! SolprismShield.commitments this = Some (CArray elems) ->
  fst <$> audit this w = entries (heap w ++ [CArray elems]) elems.
Proof.
  intros Ha. unfold audit, mbind, M_bind.
  rewrite (getCommitments_spec this w elems Ha).
  unfold read_results, load_array, load, mbind, M_bind. cbn [heap].
  rewrite lookup_app_r, Nat.sub_diag by done. cbn [lookup list_lookup mret M_ret].
  rewrite mapM_load_result. cbn [heap].
  by destruct (entries (heap w ++ [CArray elems]) elems).
Qed.

Lemma entries_ext h h' elems :
  (forall l, result_at h l = result_at h' l) -> entries h elems = entries h' elems.
Proof.
  intros H. unfold entries. induction elems as [|l elems IH]; [done|].
  cbn [mapM]. by rewrite H, IH.
Qed.

(** C9, as the code has it.  [getCommitments()] returns a new array with
    the elements of the history: whatever the caller then makes of that
    array (assigning elements or the length, push, pop, splice), the history
    of the manager is unchanged, and a later [getCommitments()] returns the
    same elements with the same fields as before. *)
Theorem snapshot_array_isolated (this : SolprismShield.t) (w : World)
    (elems : list loc) :
  heap w !! SolprismShield.commitments this = Some (CArray elems) ->
  exists snapshot w1,
    SolprismShield.getCommitments this w = Some (snapshot, w1)
    /\ snapshot <> SolprismShield.commitments this
    /\ heap w1 !! snapshot = Some (CArray elems)
    /\ forall elems', exists w2,
         assign_elements snapshot elems' w1 = Some (tt, w2)
         /\ heap w2 !! SolprismShield.commitments this = Some (CArray elems)
         /\ (exists snapshot' w3,
               SolprismShield.getCommitments this w2 = Some (snapshot', w3)
               /\ heap w3 !! snapshot' = Some (CArray elems))
         /\ fst <$> audit this w2 = fst <$> audit this w1.
Proof.
  intros Ha. pose proof (lookup_lt_Some _ _ _ Ha) as Hlt.
  eexists _, _. split; [by apply getCommitments_spec|].
  split; [lia|]. cbn [heap].
  assert (Hs : (heap w ++ [CArray elems]) !! length (heap w) = Some (CArray elems)).
  { by rewrite lookup_app_r, Nat.sub_diag. }
  split; [exact Hs|]. intros elems'.
  set (h2 := <[length (heap w) := CArray elems']> (heap w ++ [CArray elems])).
  assert (Ha2 : h2 !! SolprismShield.commitments this = Some (CArray elems)).
  { unfold h2. rewrite list_lookup_insert_ne by lia. by apply lookup_app_l_Some. }
  exists {| heap := h2; console := console w |}.
  split; [|split; [exact Ha2|split]].
  - unfold assign_elements, load_array, load, store, mbind, M_bind. cbn [heap].
    rewrite Hs. cbn [mret M_ret heap console]. by rewrite Hs.
  - eexists _, _. split; [by apply getCommitments_spec|].
    cbn [heap]. by rewrite lookup_app_r, Nat.sub_diag.
  - rewrite (audit_spec this {| heap := h2; console := console w |} elems Ha2).
    rewrite (audit_spec this {| heap := heap w ++ [CArray elems];
                                console := console w |} elems)
      by (by apply lookup_app_l_Some).
    cbn [heap]. apply entries_ext. intros l. unfold result_at.
    destruct (decide (l = length (heap w))) as [->|Hne].
    + rewrite !lookup_app_l by (unfold h2; rewrite ?length_insert, length_app; simpl; lia).
      unfold h2. rewrite list_lookup_insert_eq by (rewrite length_app; simpl; lia).
      by rewrite Hs.
    + destruct (decide (l < length (heap w) + 1)%nat) as [Hl|Hl].
      * rewrite !lookup_app_l by (unfold h2; rewrite ?length_insert, length_app; simpl; lia).
        unfold h2. by rewrite list_lookup_insert_ne by done.
      * rewrite !lookup_app_r by (unfold h2; rewrite ?length_insert, length_app; simpl; lia).
        unfold h2. by rewrite length_insert.
Qed.

Lemma snapshot_array_isolated_witness :
  exists snapshot w1,
    SolprismShield.getCommitments example_shield committed_world = Some (snapshot, w1)
    /\ snapshot <> SolprismShield.commitments example_shield
    /\ heap w1 !! snapshot = Some (CArray [2%nat])
    /\ forall elems', exists w2,
         assign_elements snapshot elems' w1 = Some (tt, w2)
         /\ heap w2 !! SolprismShield.commitments example_shield
            = Some (CArray [2%nat])
         /\ (exists snapshot' w3,
               SolprismShield.getCommitments example_shield w2 = Some (snapshot', w3)
               /\ heap w3 !! snapshot' = Some (CArray [2%nat]))
         /\ fst <$> audit example_shield w2 = fst <$> audit example_shield w1.
Proof.
  apply (snapshot_array_isolated example_shield committed_world [2%nat]).
  reflexivity.
Defined.

(** C9 as stated fails: the entries of a snapshot are the CommitmentResult
    objects of the history themselves, so an assignment to a field of an
    entry reached through the snapshot shows in what a later
    [getCommitments()] returns. *)
Lemma snapshot_entries_shared :
  ~ (forall (this : SolprismShield.t) (w : World) (elems : list loc)
            (snapshot : loc) (w1 : World) (result : loc)
            (r : CommitmentResult.t) (w2 : World),
       heap w !! SolprismShield.commitments this = Some (CArray elems) ->
       SolprismShield.getCommitments this w = Some (snapshot, w1) ->
       heap w1 !! snapshot = Some (CArray elems) ->
       result ∈ elems ->
       assign_fields result r w1 = Some (tt, w2) ->
       fst <$> audit this w2 = fst <$> audit this w1).
Proof.
  intros H.
  pose (r := {| CommitmentResult.hash := js "forged";
                CommitmentResult.trace := 1%nat;
                CommitmentResult.timestamp := 1700000000001%float |}).
  evar (w1 : World). evar (w2 : World).
  assert (E1 : SolprismShield.getCommitments example_shield committed_world
               = Some (3%nat, w1)).
  { subst w1. vm_compute. reflexivity. }
  assert (E2 : assign_fields 2%nat r w1 = Some (tt, w2)).
  { subst w1 w2 r. vm_compute. reflexivity. }
  specialize (H example_shield committed_world [2%nat] 3%nat w1 2%nat r w2
                eq_refl E1).
  assert (E : fst <$> audit example_shield w2 = fst <$> audit example_shield w1).
  { apply H; [subst w1; reflexivity | by left | exact E2]. }
  subst w1 w2 r. apply (f_equal (fmap (fmap CommitmentResult.hash))) in E.
  vm_compute in E. discriminate E.
Qed.

(** * Further properties *)

(** ** The hash *)

(** X1. The hash of a trace covers its version, agent and timestamp and
    whether it has metadata, and nothing else: two traces that agree on
    these have the same hash, whatever their actions, inputs, analyses,
    decisions and metadata contents are. *)
Theorem hashTrace_covers_top_level_only (t1 t2 : ReasoningTrace.t) :
  ReasoningTrace.version t1 = ReasoningTrace.version t2 ->
  ReasoningTrace.agent t1 = ReasoningTrace.agent t2 ->
  ReasoningTrace.timestamp t1 = ReasoningTrace.timestamp t2 ->
  (is_Some (ReasoningTrace.metadata t1) <-> is_Some (ReasoningTrace.metadata t2)) ->
  hashTrace (obj_of_trace t1) = hashTrace (obj_of_trace t2).
Proof.
  intros Hv Ha Ht Hm. rewrite !hashTrace_top_level.
  replace (top_level t2) with (top_level t1); [done|].
  unfold top_level. rewrite Hv, Ha, Ht. f_equal.
  destruct (ReasoningTrace.metadata t1), (ReasoningTrace.metadata t2); try done.
  - destruct Hm as [Hm _]. by destruct Hm as [? ?].
  - destruct Hm as [_ Hm]. by destruct Hm as [? ?].
Qed.

Lemma hashTrace_covers_top_level_only_witness :
  ReasoningTrace.decision
    (createTradeReasoningTrace example_clock example_rejected)
  <> ReasoningTrace.decision example_trace
  /\ hashTrace (obj_of_trace (createTradeReasoningTrace example_clock example_rejected))
     = hashTrace (obj_of_trace example_trace).
Proof.
  split.
  - intros E. apply (f_equal Decision.riskAssessment) in E. by vm_compute in E.
  - by apply (hashTrace_covers_top_level_only
                (createTradeReasoningTrace example_clock example_rejected)
                example_trace).
Defined.

(** X2. The hash of a trace a builder returns depends on the reading of
    the clock alone: at one reading, all trade traces have the same hash,
    approved or rejected, and all firewall traces have the same hash,
    allowed or denied. *)
Theorem built_traces_hash_by_clock (clock clock' : Clock)
    (d d' : TradeDecision.t) (p p' : FirewallParams.t) :
  Date_now clock = Date_now clock' ->
  hashTrace (obj_of_trace (createTradeReasoningTrace clock d))
  = hashTrace (obj_of_trace (createTradeReasoningTrace clock' d'))
  /\ hashTrace (obj_of_trace (createFirewallTrace clock p))
     = hashTrace (obj_of_trace (createFirewallTrace clock' p')).
Proof.
  intros Hc. rewrite !hashTrace_top_level.
  assert (E1 : top_level (createTradeReasoningTrace clock d)
               = top_level (createTradeReasoningTrace clock' d')).
  { unfold top_level, createTradeReasoningTrace.
    cbn [ReasoningTrace.version ReasoningTrace.agent ReasoningTrace.timestamp
         ReasoningTrace.metadata]. by rewrite Hc. }
  assert (E2 : top_level (createFirewallTrace clock p)
               = top_level (createFirewallTrace clock' p')).
  { unfold top_level, createFirewallTrace.
    cbn [ReasoningTrace.version ReasoningTrace.agent ReasoningTrace.timestamp
         ReasoningTrace.metadata]. by rewrite Hc. }
  by rewrite E1, E2.
Qed.

Lemma built_traces_hash_by_clock_witness :
  hashTrace (obj_of_trace (createTradeReasoningTrace example_clock example_decision))
  = hashTrace (obj_of_trace (createTradeReasoningTrace example_clock example_flagged))
  /\ hashTrace (obj_of_trace (createFirewallTrace example_clock (example_params true)))
     = hashTrace (obj_of_trace (createFirewallTrace example_clock (example_params false))).
Proof.
  by apply (built_traces_hash_by_clock example_clock example_clock).
Defined.

Lemma length_round st kw : length (Sha256.round st kw) = length st.
Proof.
  unfold Sha256.round.
  by destruct st as [|a [|b [|c [|d [|e [|f [|g [|h [|]]]]]]]]].
Qed.

Lemma length_rounds kws : forall st, length (fold_left Sha256.round kws st) = length st.
Proof.
  induction kws as [|kw kws IH]; intros st; [done|].
  cbn [fold_left]. by rewrite IH, length_round.
Qed.

Lemma length_compress st block : length (Sha256.compress st block) = length st.
Proof.
  unfold Sha256.compress.
  rewrite length_map, length_combine, length_rounds. lia.
Qed.

Lemma length_compressions bs : forall st, length (fold_left Sha256.compress bs st) = length st.
Proof.
  induction bs as [|b bs IH]; intros st; [done|].
  cbn [fold_left]. by rewrite IH, length_compress.
Qed.

Lemma length_be_bytes count x : length (Sha256.be_bytes count x) = count.
Proof. unfold Sha256.be_bytes. by rewrite length_map, length_rev, length_seq. Qed.

Lemma be_bytes_bound count x : Forall (fun b => b < 256) (Sha256.be_bytes count x).
Proof.
  unfold Sha256.be_bytes. apply Forall_forall. intros b Hb.
  apply list_elem_of_In, in_map_iff in Hb as (i & <- & _).
  by apply N.mod_lt.
Qed.

Lemma length_digest msg : length (Sha256.digest msg) = 32%nat.
Proof.
  unfold Sha256.digest.
  set (st := fold_left _ _ _).
  assert (Hst : length st = 8%nat) by (unfold st; by rewrite length_compressions).
  clearbody st. do 9 (destruct st as [|? st]; try done).
Qed.

Lemma digest_bound msg : Forall (fun b => b < 256) (Sha256.digest msg).
Proof.
  unfold Sha256.digest. set (st := fold_left _ _ _). clearbody st.
  induction st as [|x st IH]; [constructor|].
  cbn [flat_map]. apply Forall_app. split; [apply be_bytes_bound | exact IH].
Qed.

Lemma hex_digit_lower d : d < 16 -> lower_hex (Sha256.hex_digit d).
Proof.
  intros Hd. unfold Sha256.hex_digit, lower_hex.
  destruct (N.ltb_spec d 10); lia.
Qed.

Lemma hex_format bs :
  Forall (fun b => b < 256) bs ->
  length (Sha256.hex bs) = (2 * length bs)%nat /\ Forall lower_hex (Sha256.hex bs).
Proof.
  unfold Sha256.hex. induction 1 as [|b bs Hb _ [IH1 IH2]]; [by split|].
  cbn [flat_map length app]. split; [rewrite IH1; lia|].
  constructor; [|constructor; [|exact IH2]]; apply hex_digit_lower.
  - apply N.Div0.div_lt_upper_bound. lia.
  - by apply N.mod_lt.
Qed.

(** X3. The hash of any object is a string of exactly 64 lower-case
    hexadecimal digits, so the prefix [hash.slice(0, 16)] the log shows
    always has 16 characters. *)
Theorem hashTrace_format (trace : object) :
  length (hashTrace trace) = 64%nat
  /\ Forall lower_hex (hashTrace trace)
  /\ length (slice0 16 (hashTrace trace)) = 16%nat.
Proof.
  unfold hashTrace, sha256_hex.
  set (bs := Sha256.digest _).
  destruct (hex_format bs (digest_bound _)) as [Hl Hf].
  unfold bs in Hl. rewrite length_digest in Hl.
  split; [exact Hl|]. split; [exact Hf|].
  unfold slice0. rewrite length_take. unfold bs. rewrite Hl. reflexivity.
Qed.

(** ** The builders *)

Lemma trade_actionChosen clock d :
  Decision.actionChosen (ReasoningTrace.decision (createTradeReasoningTrace clock d))
  = if approved d then
      TradeAction_string (TradeDecision.action d) ++ js " "
      ++ Number_toString (TradeDecision.amount d)
    else js "REJECT — trade blocked".
Proof. reflexivity. Qed.

(** X4. The fields of a trade trace never contradict one another: either
    it is a ["trade"] with risk ["low"] or ["moderate"], two alternatives
    and the flag [approved] set, or it is a ["rejection"] with risk
    ["high"], one alternative, the flag unset and the decision
    ["REJECT — trade blocked"]. *)
Theorem trade_trace_consistent (clock : Clock) (d : TradeDecision.t) :
  let t := createTradeReasoningTrace clock d in
  let flag :=
    (fun m => assoc (js "approved") <$> Metadata.custom m)
      <$> ReasoningTrace.metadata t in
  (TraceAction.type (ReasoningTrace.action t) = js "trade"
   /\ (Decision.riskAssessment (ReasoningTrace.decision t) = js "low"
       \/ Decision.riskAssessment (ReasoningTrace.decision t) = js "moderate")
   /\ length (Analysis.alternativesConsidered (ReasoningTrace.analysis t)) = 2%nat
   /\ flag = Some (Some (Some (SBool true))))
  \/ (TraceAction.type (ReasoningTrace.action t) = js "rejection"
      /\ Decision.riskAssessment (ReasoningTrace.decision t) = js "high"
      /\ length (Analysis.alternativesConsidered (ReasoningTrace.analysis t)) = 1%nat
      /\ flag = Some (Some (Some (SBool false)))
      /\ Decision.actionChosen (ReasoningTrace.decision t)
         = js "REJECT — trade blocked").
Proof.
  cbv zeta.
  rewrite trade_action_type, trade_riskAssessment, trade_alternatives,
    trade_approved_flag, trade_actionChosen.
  destruct (approved d); [left|right]; split_and!; try done.
  destruct (PrimFloat.leb 80 (TradeDecision.confidence d)); [by left | by right].
Qed.

(** X5. An empty list of stages passes: a decision without stages and
    without a scam check is approved, and the trace says that all 0 stages
    passed. *)
Theorem empty_stages_are_approved (clock : Clock) (d : TradeDecision.t) :
  TradeDecision.predictionStages d = [] ->
  TradeDecision.scamCheck d = None ->
  let t := createTradeReasoningTrace clock d in
  TraceAction.type (ReasoningTrace.action t) = js "trade"
  /\ Analysis.logic (ReasoningTrace.analysis t)
     = js "All 0 prediction stages passed. Scam check clean. Confidence: "
       ++ Number_toString (TradeDecision.confidence d) ++ js "%. Trade approved."
  /\ DataSource.summary <$> head (Inputs.dataSources (ReasoningTrace.inputs t))
     = Some (js "0/0 stages passed").
Proof.
  destruct d as [tm act amt stages sc cs conf]. cbn. intros -> ->.
  split_and!; reflexivity.
Qed.

Lemma empty_stages_are_approved_witness :
  TraceAction.type
    (ReasoningTrace.action
       (createTradeReasoningTrace example_clock
          {| TradeDecision.tokenMint := js "So11111111111111111111111111111111111111112";
             TradeDecision.action := buy;
             TradeDecision.amount := 1.5%float;
             TradeDecision.predictionStages := [];
             TradeDecision.scamCheck := None;
             TradeDecision.cyclicSignal := None;
             TradeDecision.confidence := 82%float |}))
  = js "trade".
Proof.
  by apply (empty_stages_are_approved example_clock
              {| TradeDecision.tokenMint :=
                   js "So11111111111111111111111111111111111111112";
                 TradeDecision.action := buy;
                 TradeDecision.amount := 1.5%float;
                 TradeDecision.predictionStages := [];
                 TradeDecision.scamCheck := None;
                 TradeDecision.cyclicSignal := None;
                 TradeDecision.confidence := 82%float |}).
Defined.

(** X6. Without a scam check, a decision whose stages all passed is
    approved and its trace states "Scam check clean." although no check
    was made: the metadata records the risk as ["unchecked"] and no scam
    data source is listed. *)
Theorem missing_scam_check_reads_clean (clock : Clock) (d : TradeDecision.t) :
  TradeDecision.scamCheck d = None ->
  Forall (fun s => PredictionStage.passed s = true) (TradeDecision.predictionStages d) ->
  let t := createTradeReasoningTrace clock d in
  TraceAction.type (ReasoningTrace.action t) = js "trade"
  /\ Analysis.logic (ReasoningTrace.analysis t)
     = (js "All "
        ++ Number_toString (Number_of_nat (length (TradeDecision.predictionStages d)))
        ++ js " prediction stages passed. ")
       ++ js "Scam check clean. "
       ++ (js "Confidence: " ++ Number_toString (TradeDecision.confidence d)
           ++ js "%. Trade approved.")
  /\ (fun m => assoc (js "scamRisk") <$> Metadata.custom m)
       <$> ReasoningTrace.metadata t
     = Some (Some (Some (SStr (js "unchecked"))))
  /\ length (Inputs.dataSources (ReasoningTrace.inputs t))
     = match TradeDecision.cyclicSignal d with Some _ => 2%nat | None => 1%nat end.
Proof.
  intros Hsc Hall.
  assert (Ha : approved d = true).
  { apply approved_iff. split; [exact Hall | by left]. }
  cbv zeta. rewrite trade_action_type, Ha. split; [done|].
  unfold approved in Ha. rewrite Hsc, andb_true_r in Ha.
  unfold createTradeReasoningTrace.
  cbn [ReasoningTrace.analysis Analysis.logic ReasoningTrace.metadata
       ReasoningTrace.inputs Inputs.dataSources].
  rewrite Hsc, Ha. cbn [andb].
  split; [done|]. split; [done|].
  by destruct (TradeDecision.cyclicSignal d).
Qed.

Lemma missing_scam_check_reads_clean_witness :
  (fun m => assoc (js "scamRisk") <$> Metadata.custom m)
    <$> ReasoningTrace.metadata
          (createTradeReasoningTrace example_clock
             (with_stages [stage "10min-confirm" true 85%float "Uptrend confirmed"]
                {| TradeDecision.tokenMint := js "So111";
                   TradeDecision.action := sell;
                   TradeDecision.amount := 2%float;
                   TradeDecision.predictionStages := [];
                   TradeDecision.scamCheck := None;
                   TradeDecision.cyclicSignal := None;
                   TradeDecision.confidence := 90%float |}))
  = Some (Some (Some (SStr (js "unchecked")))).
Proof.
  apply (missing_scam_check_reads_clean example_clock
           (with_stages [stage "10min-confirm" true 85%float "Uptrend confirmed"]
              {| TradeDecision.tokenMint := js "So111";
                 TradeDecision.action := sell;
                 TradeDecision.amount := 2%float;
                 TradeDecision.predictionStages := [];
                 TradeDecision.scamCheck := None;
                 TradeDecision.cyclicSignal := None;
                 TradeDecision.confidence := 90%float |})).
  - reflexivity.
  - by repeat constructor.
Defined.

(** X7. A confidence that is not a number is neither [>= 80] nor rejected:
    an approved decision with confidence NaN gets the risk ["moderate"]. *)
Theorem nan_confidence_is_moderate (clock : Clock) (d : TradeDecision.t) :
  Approved d ->
  PrimFloat.is_nan (TradeDecision.confidence d) = true ->
  Decision.riskAssessment
    (ReasoningTrace.decision (createTradeReasoningTrace clock d))
  = js "moderate"
  /\ Decision.confidence
       (ReasoningTrace.decision (createTradeReasoningTrace clock d))
     = TradeDecision.confidence d.
Proof.
  intros Ha%approved_iff Hnan. split; [|reflexivity].
  rewrite trade_riskAssessment, Ha.
  replace (PrimFloat.leb 80 (TradeDecision.confidence d)) with false; [done|].
  rewrite leb_spec. unfold Prim2SF at 2. rewrite Hnan. by vm_compute.
Qed.

Lemma nan_confidence_is_moderate_witness :
  Decision.riskAssessment
    (ReasoningTrace.decision
       (createTradeReasoningTrace example_clock
          (with_confidence PrimFloat.nan example_decision)))
  = js "moderate".
Proof.
  apply (nan_confidence_is_moderate example_clock
           (with_confidence PrimFloat.nan example_decision)).
  - apply approved_iff. by vm_compute.
  - by vm_compute.
Defined.

(** X8. A trade trace has three observations, one per stage, and one for
    each of the scam check and the cyclic signal that is supplied; it
    lists one data source and one more for each of the two. *)
Theorem trade_trace_sizes (clock : Clock) (d : TradeDecision.t) :
  let t := createTradeReasoningTrace clock d in
  let optional :=
    ((if TradeDecision.scamCheck d is Some _ then 1 else 0)
     + (if TradeDecision.cyclicSignal d is Some _ then 1 else 0))%nat in
  length (Analysis.observations (ReasoningTrace.analysis t))
  = (3 + length (TradeDecision.predictionStages d) + optional)%nat
  /\ length (Inputs.dataSources (ReasoningTrace.inputs t)) = (1 + optional)%nat.
Proof.
  cbv zeta. unfold createTradeReasoningTrace.
  cbn [ReasoningTrace.analysis Analysis.observations ReasoningTrace.inputs
       Inputs.dataSources].
  rewrite !length_app, length_map.
  destruct (TradeDecision.scamCheck d), (TradeDecision.cyclicSignal d);
    cbn [length]; split; lia.
Qed.

(** X9. The firewall builder takes [approved] as given: it is not checked
    against the outcomes of the simulation, spend-limit, slippage and
    allowlist checks, which reach the observations only.  Parameters that
    agree on the transaction type, [approved] and the reason give the same
    action, inputs, logic, alternatives and decision. *)
Theorem firewall_decision_ignores_checks (clock : Clock) (p p' : FirewallParams.t) :
  FirewallParams.transactionType p = FirewallParams.transactionType p' ->
  FirewallParams.approved p = FirewallParams.approved p' ->
  FirewallParams.reason p = FirewallParams.reason p' ->
  let t := createFirewallTrace clock p in
  let t' := createFirewallTrace clock p' in
  ReasoningTrace.action t = ReasoningTrace.action t'
  /\ ReasoningTrace.inputs t = ReasoningTrace.inputs t'
  /\ Analysis.logic (ReasoningTrace.analysis t)
     = Analysis.logic (ReasoningTrace.analysis t')
  /\ Analysis.alternativesConsidered (ReasoningTrace.analysis t)
     = Analysis.alternativesConsidered (ReasoningTrace.analysis t')
  /\ ReasoningTrace.decision t = ReasoningTrace.decision t'.
Proof.
  intros H1 H2 H3. cbv zeta. unfold createFirewallTrace.
  cbn [ReasoningTrace.action ReasoningTrace.inputs ReasoningTrace.analysis
       ReasoningTrace.decision Analysis.logic Analysis.alternativesConsidered].
  rewrite H1, H2, H3.
  split; [reflexivity|]. split; [reflexivity|]. split; [reflexivity|].
  split; reflexivity.
Qed.

Lemma firewall_decision_ignores_checks_witness :
  TraceAction.type
    (ReasoningTrace.action (createFirewallTrace example_clock inconsistent_params))
  = js "firewall_allow"
  /\ ReasoningTrace.decision (createFirewallTrace example_clock inconsistent_params)
     = ReasoningTrace.decision
         (createFirewallTrace example_clock (example_params true)).
Proof.
  split; [by vm_compute|].
  refine (proj2 (proj2 (proj2 (proj2
            (firewall_decision_ignores_checks example_clock inconsistent_params
               (example_params true) _ _ _))))); by vm_compute.
Defined.

(** X10. A trade trace holds the first eight code units of the token
    address and nothing of the token address in the scam check: decisions
    for tokens that share these eight units, with scam checks made for any
    token, give the same trace. *)
Theorem trade_trace_token_prefix (clock : Clock) (d : TradeDecision.t)
    (token checked : jsstring) :
  slice0 8 token = slice0 8 (TradeDecision.tokenMint d) ->
  createTradeReasoningTrace clock (with_tokenMint token (with_scam_tokenMint checked d))
  = createTradeReasoningTrace clock d.
Proof.
  intros H. unfold createTradeReasoningTrace, with_tokenMint, with_scam_tokenMint.
  cbn [TradeDecision.tokenMint TradeDecision.action TradeDecision.amount
       TradeDecision.predictionStages TradeDecision.scamCheck
       TradeDecision.cyclicSignal TradeDecision.confidence].
  rewrite H.
  destruct (TradeDecision.scamCheck d) as [[stm scam checks risk]|]; reflexivity.
Qed.

Lemma trade_trace_token_prefix_witness :
  createTradeReasoningTrace example_clock
    (with_tokenMint (js "So111111AnotherTokenAltogether")
       (with_scam_tokenMint (js "SomeOtherToken") example_decision))
  = createTradeReasoningTrace example_clock example_decision.
Proof.
  refine (trade_trace_token_prefix example_clock example_decision
            (js "So111111AnotherTokenAltogether") (js "SomeOtherToken") _).
  by vm_compute.
Defined.

Lemma filter_passed_all (l : list PredictionStage.t) :
  forallb PredictionStage.passed l = true -> List.filter PredictionStage.passed l = l.
Proof.
  induction l as [|s l IH]; [done|]. cbn [forallb List.filter].
  intros [Hs Hl]%andb_prop. rewrite Hs. by rewrite IH.
Qed.

(** X11. In the trace of an approved decision the number of stages passed
    is the number of stages: the gate's summary reads "n/n stages passed",
    and [stagesPassed] equals [totalStages] in the metadata. *)
Theorem approved_passes_every_stage (clock : Clock) (d : TradeDecision.t) :
  Approved d ->
  let t := createTradeReasoningTrace clock d in
  let n := Number_of_nat (length (TradeDecision.predictionStages d)) in
  DataSource.summary <$> head (Inputs.dataSources (ReasoningTrace.inputs t))
  = Some (Number_toString n ++ js "/" ++ Number_toString n ++ js " stages passed")
  /\ (fun m => assoc (js "stagesPassed") <$> Metadata.custom m)
       <$> ReasoningTrace.metadata t
     = Some (Some (Some (SNum n)))
  /\ (fun m => assoc (js "totalStages") <$> Metadata.custom m)
       <$> ReasoningTrace.metadata t
     = Some (Some (Some (SNum n))).
Proof.
  intros [Hall _]%approved_iff%andb_prop. cbv zeta.
  unfold createTradeReasoningTrace.
  cbn [ReasoningTrace.inputs Inputs.dataSources ReasoningTrace.metadata].
  rewrite (filter_passed_all _ Hall). by split_and!.
Qed.

Lemma approved_passes_every_stage_witness :
  DataSource.summary
    <$> head (Inputs.dataSources
                (ReasoningTrace.inputs
                   (createTradeReasoningTrace example_clock example_decision)))
  = Some (js "3/3 stages passed").
Proof.
  rewrite (proj1 (approved_passes_every_stage example_clock example_decision
                    (proj1 (approved_iff example_decision) eq_refl))).
  by vm_compute.
Defined.

(** ** The manager: effects of one call *)

Lemma new_spec config w :
  SolprismShield.new config w
  = Some ({| SolprismShield.agentName :=
               match Config.agentName config with
               | Some (u :: s) => u :: s
               | _ => js "AgentShield"
               end;
             SolprismShield.commitments := length (heap w) |},
          {| heap := heap w ++ [CArray []]; console := console w |}).
Proof. reflexivity. Qed.

Lemma commit_effects this trace tr now w elems :
  heap w !! trace = Some (CTrace tr) ->
  heap w !! SolprismShield.commitments this = Some (CArray elems) ->
  exists w',
    SolprismShield.commit this trace now w = Some (length (heap w), w')
    /\ heap w' !! length (heap w)
       = Some (CResult {| CommitmentResult.hash := hashTrace (obj_of_trace tr);
                          CommitmentResult.trace := trace;
                          CommitmentResult.timestamp := now |})
    /\ heap w' !! SolprismShield.commitments this
       = Some (CArray (elems ++ [length (heap w)]))
    /\ (forall l c, l <> SolprismShield.commitments this ->
                    heap w !! l = Some c -> heap w' !! l = Some c)
    /\ length (heap w') = S (length (heap w))
    /\ length (console w') = S (length (console w)).
Proof.
  intros Ht Ha. destruct (commit_spec this trace tr now w elems Ht Ha) as [line E].
  eexists. split; [exact E|]. cbn [heap console].
  pose proof (lookup_lt_Some _ _ _ Ha) as Hlt.
  split_and!.
  - rewrite list_lookup_insert_ne by lia. by rewrite lookup_app_r, Nat.sub_diag.
  - apply list_lookup_insert_eq. rewrite length_app. lia.
  - intros l c Hne Hl. rewrite list_lookup_insert_ne by done.
    by apply lookup_app_l_Some.
  - rewrite length_insert, length_app. simpl. lia.
  - rewrite length_app. simpl. lia.
Qed.

Lemma entry_ok_frame this w w' elems result :
  heap w !! SolprismShield.commitments this = Some (CArray elems) ->
  (forall l c, l <> SolprismShield.commitments this ->
               heap w !! l = Some c -> heap w' !! l = Some c) ->
  entry_ok w result -> entry_ok w' result.
Proof.
  intros Ha Hframe (r & tr & Hr & Ht & Hh). exists r, tr.
  split_and!; [apply Hframe; [|done] | apply Hframe; [|done] | done];
    intros ?; congruence.
Qed.

Lemma perform_effects this c w elems :
  heap w !! SolprismShield.commitments this = Some (CArray elems) ->
  call_ok w c ->
  exists results w',
    perform this c w = Some (results, w')
    /\ heap w' !! SolprismShield.commitments this = Some (CArray (elems ++ results))
    /\ length results = commits [c]
    /\ (forall l x, l <> SolprismShield.commitments this ->
                    heap w !! l = Some x -> heap w' !! l = Some x)
    /\ Forall (entry_ok w') results
    /\ length (console w') = (length (console w) + logs [c])%nat.
Proof.
  intros Ha Hok.
  assert (Hcommit : forall trace tr now w0,
    heap w0 !! trace = Some (CTrace tr) ->
    heap w0 !! SolprismShield.commitments this = Some (CArray elems) ->
    exists result w',
      SolprismShield.commit this trace now w0 = Some (result, w')
      /\ heap w' !! SolprismShield.commitments this = Some (CArray (elems ++ [result]))
      /\ (forall l x, l <> SolprismShield.commitments this ->
                      heap w0 !! l = Some x -> heap w' !! l = Some x)
      /\ entry_ok w' result
      /\ length (console w') = S (length (console w0))).
  { intros trace tr now w0 Ht Ha0.
    destruct (commit_effects this trace tr now w0 elems Ht Ha0)
      as (w' & E & Hr & Ha' & Hframe & _ & Hlog).
    exists (length (heap w0)), w'. split_and!; try done.
    eexists _, tr. split; [exact Hr|]. cbn [CommitmentResult.trace CommitmentResult.hash].
    split; [|done]. apply Hframe; [|done]. intros ->. congruence. }
  assert (Hfresh : forall t now,
    exists result w',
      (trace ← alloc (CTrace t); SolprismShield.commit this trace now) w
      = Some (result, w')
      /\ heap w' !! SolprismShield.commitments this = Some (CArray (elems ++ [result]))
      /\ (forall l x, l <> SolprismShield.commitments this ->
                      heap w !! l = Some x -> heap w' !! l = Some x)
      /\ entry_ok w' result
      /\ length (console w') = S (length (console w))).
  { intros t now. unfold mbind at 1, M_bind at 1, alloc at 1.
    edestruct (Hcommit (length (heap w)) t now
                 {| heap := heap w ++ [CTrace t]; console := console w |})
      as (result & w' & E & Ha' & Hframe & Hentry & Hlog); cbn [heap].
    - by rewrite lookup_app_r, Nat.sub_diag.
    - by apply lookup_app_l_Some.
    - exists result, w'. split_and!; try done.
      intros l x Hne Hl. apply Hframe; [done|]. cbn [heap]. by apply lookup_app_l_Some. }
  destruct c as [trace now|hash trace| |decision clock now|params clock now];
    cbn [perform call_ok] in *.
  - destruct Hok as [tr Ht].
    destruct (Hcommit trace tr now w Ht Ha) as (result & w' & E & Ha' & Hframe & He & Hl).
    exists [result], w'. unfold mbind, M_bind. rewrite E.
    split_and!; try done; try (by constructor); try (cbn; lia).
  - destruct Hok as [tr Ht]. destruct (verify_spec this hash trace tr w Ht) as [line E].
    eexists [], _. unfold mbind, M_bind. rewrite E.
    split; [done|]. cbn [heap console]. rewrite app_nil_r, length_app.
    split_and!; try done; try (cbn; lia).
  - eexists [], _. unfold mbind, M_bind.
    rewrite (getCommitments_spec this w elems Ha).
    split; [done|]. cbn [heap console]. rewrite app_nil_r.
    split_and!; try done; try (cbn; lia); [by apply lookup_app_l_Some|].
    intros l x _ Hl. by apply lookup_app_l_Some.
  - destruct (Hfresh (createTradeReasoningTrace clock decision) now)
      as (result & w' & E & Ha' & Hframe & He & Hl).
    exists [result], w'. unfold SolprismShield.commitTradeDecision.
    unfold mbind at 1, M_bind at 1. rewrite E.
    split_and!; try done; try (by constructor); try (cbn; lia).
  - destruct (Hfresh (createFirewallTrace clock params) now)
      as (result & w' & E & Ha' & Hframe & He & Hl).
    exists [result], w'. unfold SolprismShield.commitFirewallDecision.
    unfold mbind at 1, M_bind at 1. rewrite E.
    split_and!; try done; try (by constructor); try (cbn; lia).
Qed.

Lemma logs_cons c calls : logs (c :: calls) = (logs [c] + logs calls)%nat.
Proof. unfold logs. simpl. by destruct c. Qed.

Lemma call_ok_frame this w w' elems c :
  heap w !! SolprismShield.commitments this = Some (CArray elems) ->
  (forall l x, l <> SolprismShield.commitments this ->
               heap w !! l = Some x -> heap w' !! l = Some x) ->
  call_ok w c -> call_ok w' c.
Proof.
  intros Ha Hframe. destruct c; cbn [call_ok]; try done.
  all: intros [tr Ht]; exists tr; apply Hframe; [|done]; intros ->; congruence.
Qed.

Lemma run_effects this calls :
  forall w elems,
    heap w !! SolprismShield.commitments this = Some (CArray elems) ->
    Forall (call_ok w) calls ->
    exists results w',
      run this calls w = Some (results, w')
      /\ heap w' !! SolprismShield.commitments this = Some (CArray (elems ++ results))
      /\ length results = commits calls
      /\ (forall l x, l <> SolprismShield.commitments this ->
                      heap w !! l = Some x -> heap w' !! l = Some x)
      /\ Forall (entry_ok w') results
      /\ length (console w') = (length (console w) + logs calls)%nat.
Proof.
  induction calls as [|c calls IH]; intros w elems Ha Hok.
  - exists [], w. rewrite app_nil_r. split_and!; try done; try (cbn; lia).
  - apply Forall_cons in Hok as [Hc Hrest].
    destruct (perform_effects this c w elems Ha Hc)
      as (rs & w1 & E1 & Ha1 & Hn1 & Hf1 & He1 & Hl1).
    destruct (IH w1 (elems ++ rs) Ha1) as (rs' & w2 & E2 & Ha2 & Hn2 & Hf2 & He2 & Hl2).
    { eapply Forall_impl; [exact Hrest|]. intros c'. by apply (call_ok_frame this w w1 elems). }
    exists (rs ++ rs'), w2. cbn [run]. unfold mbind, M_bind. rewrite E1, E2.
    split_and!.
    + done.
    + by rewrite app_assoc.
    + rewrite length_app, commits_cons. lia.
    + intros l x Hne Hl. apply Hf2; [done|]. by apply Hf1.
    + apply Forall_app. split; [|done].
      eapply Forall_impl; [exact He1|]. intros result.
      by apply (entry_ok_frame this w1 w2 (elems ++ rs)).
    + rewrite logs_cons. lia.
Qed.

(** ** The manager: properties *)

(** X12. [verify] is a check of the hash against the trace alone: it
    answers true exactly when the hash is the hash of the trace, whether or
    not that trace was ever committed, it gives the same answer through any
    manager, and it changes no object, writing one line to the console. *)
Theorem verify_checks_hash_only (this this' : SolprismShield.t) (hash : jsstring)
    (trace : loc) (tr : ReasoningTrace.t) (w : World) :
  heap w !! trace = Some (CTrace tr) ->
  exists valid w',
    SolprismShield.verify this hash trace w = Some (valid, w')
    /\ (valid = true <-> hash = hashTrace (obj_of_trace tr))
    /\ heap w' = heap w
    /\ length (console w') = S (length (console w))
    /\ SolprismShield.verify this' hash trace w = Some (valid, w').
Proof.
  intros Ht. destruct (verify_spec this hash trace tr w Ht) as [line E].
  eexists _, _. split; [exact E|]. cbn [heap console]. split_and!.
  - rewrite bool_decide_eq_true. split; congruence.
  - done.
  - rewrite length_app. simpl. lia.
  - exact E.
Qed.

Lemma verify_checks_hash_only_witness :
  heap example_world !! SolprismShield.commitments example_shield = Some (CArray [])
  /\ exists valid w',
       SolprismShield.verify example_shield (hashTrace (obj_of_trace example_trace))
         1%nat example_world = Some (valid, w')
       /\ (valid = true
           <-> hashTrace (obj_of_trace example_trace)
               = hashTrace (obj_of_trace example_trace))
       /\ heap w' = heap example_world
       /\ length (console w') = S (length (console example_world))
       /\ SolprismShield.verify example_shield
            (hashTrace (obj_of_trace example_trace)) 1%nat example_world
          = Some (valid, w').
Proof.
  split; [reflexivity|].
  apply (verify_checks_hash_only example_shield example_shield
           (hashTrace (obj_of_trace example_trace)) 1%nat example_trace example_world).
  reflexivity.
Defined.

(** X13. After any sequence of calls on a new manager, every entry of its
    history holds the hash of the trace it refers to, and [verify] on the
    hash and the trace of any entry answers true: later calls keep the
    entries of earlier ones. *)
Theorem history_entries_verify (config : Config.t) (calls : list call) (w0 : World) :
  Forall (call_ok w0) calls ->
  exists this w1 results w2,
    SolprismShield.new config w0 = Some (this, w1)
    /\ run this calls w1 = Some (results, w2)
    /\ heap w2 !! SolprismShield.commitments this = Some (CArray results)
    /\ Forall (entry_ok w2) results
    /\ Forall (fun result =>
                 exists r w3,
                   heap w2 !! result = Some (CResult r)
                   /\ SolprismShield.verify this (CommitmentResult.hash r)
                        (CommitmentResult.trace r) w2 = Some (true, w3))
         results.
Proof.
  intros Hok. rewrite new_spec.
  set (this := {| SolprismShield.agentName := _; SolprismShield.commitments := _ |}).
  set (w1 := {| heap := heap w0 ++ [CArray []]; console := console w0 |}).
  exists this, w1.
  assert (Ha : heap w1 !! SolprismShield.commitments this = Some (CArray [])).
  { cbn. by rewrite lookup_app_r, Nat.sub_diag. }
  destruct (run_effects this calls w1 [] Ha) as (results & w2 & E & Ha2 & _ & _ & He & _).
  { eapply Forall_impl; [exact Hok|]. intros [] H; cbn [call_ok] in *; try done.
    all: destruct H as [tr Ht]; exists tr; cbn; by apply lookup_app_l_Some. }
  exists results, w2. split_and!; try done.
  eapply Forall_impl; [exact He|]. intros result (r & tr & Hr & Ht & Hh).
  destruct (verify_spec this (CommitmentResult.hash r) (CommitmentResult.trace r)
              tr w2 Ht) as [line Hv].
  exists r. eexists. split; [exact Hr|]. rewrite Hv.
  by rewrite bool_decide_eq_true_2.
Qed.

Lemma history_entries_verify_witness :
  exists this w1 results w2,
    SolprismShield.new default_config caller_world = Some (this, w1)
    /\ run this example_calls w1 = Some (results, w2)
    /\ heap w2 !! SolprismShield.commitments this = Some (CArray results)
    /\ Forall (entry_ok w2) results
    /\ Forall (fun result =>
                 exists r w3,
                   heap w2 !! result = Some (CResult r)
                   /\ SolprismShield.verify this (CommitmentResult.hash r)
                        (CommitmentResult.trace r) w2 = Some (true, w3))
         results.
Proof.
  apply (history_entries_verify default_config example_calls caller_world).
  repeat constructor; by exists example_trace.
Defined.

(** X14. Managers do not share their histories: of two managers made one
    after the other, calls on the first leave the history of the second
    empty. *)
Theorem managers_are_independent (config_a config_b : Config.t)
    (calls : list call) (w0 : World) :
  Forall (call_ok w0) calls ->
  exists results w',
    history_of_second config_a config_b calls w0 = Some ((results, []), w')
    /\ length results = commits calls.
Proof.
  intros Hok. unfold history_of_second.
  unfold mbind at 1, M_bind at 1. rewrite new_spec.
  unfold mbind at 1, M_bind at 1. rewrite new_spec. cbn [heap console].
  set (a := {| SolprismShield.agentName := _;
               SolprismShield.commitments := length (heap w0) |}).
  set (b := {| SolprismShield.agentName := _; SolprismShield.commitments := _ |}).
  set (w2 := {| heap := (heap w0 ++ [CArray []]) ++ [CArray []];
                console := console w0 |}).
  assert (Ha : heap w2 !! SolprismShield.commitments a = Some (CArray [])).
  { cbn. apply lookup_app_l_Some. by rewrite lookup_app_r, Nat.sub_diag. }
  assert (Hb : heap w2 !! SolprismShield.commitments b = Some (CArray [])).
  { cbn. by rewrite lookup_app_r, Nat.sub_diag. }
  destruct (run_effects a calls w2 [] Ha) as (results & w3 & E & _ & Hn & Hf & _ & _).
  { eapply Forall_impl; [exact Hok|]. intros [] H; cbn [call_ok] in *; try done.
    all: destruct H as [tr Ht]; exists tr; cbn; by do 2 apply lookup_app_l_Some. }
  assert (Hb3 : heap w3 !! SolprismShield.commitments b = Some (CArray [])).
  { apply Hf; [|exact Hb]. cbn. rewrite length_app. simpl. lia. }
  exists results. eexists. unfold mbind at 1, M_bind at 1. rewrite E.
  unfold mbind at 1, M_bind at 1. rewrite (getCommitments_spec b w3 [] Hb3).
  unfold load_array, load, mbind, M_bind. cbn [heap].
  rewrite lookup_app_r, Nat.sub_diag by done. cbn. done.
Qed.

Lemma managers_are_independent_witness :
  exists results w',
    history_of_second default_config default_config example_calls caller_world
    = Some ((results, []), w')
    /\ length results = commits example_calls.
Proof.
  apply (managers_are_independent default_config default_config example_calls
           caller_world).
  repeat constructor; by exists example_trace.
Defined.

(** X15. The manager does not recognise a trace it has already committed:
    committing one trace object twice appends two distinct
    CommitmentResults with the same hash and the same trace. *)
Theorem commit_twice_appends_twice (this : SolprismShield.t) (trace : loc)
    (tr : ReasoningTrace.t) (now now' : number) (w : World) (elems : list loc) :
  heap w !! trace = Some (CTrace tr) ->
  heap w !! SolprismShield.commitments this = Some (CArray elems) ->
  exists r1 r2 w2 c1 c2,
    run this [Commit trace now; Commit trace now'] w = Some ([r1; r2], w2)
    /\ r1 <> r2
    /\ heap w2 !! SolprismShield.commitments this = Some (CArray (elems ++ [r1; r2]))
    /\ heap w2 !! r1 = Some (CResult c1)
    /\ heap w2 !! r2 = Some (CResult c2)
    /\ CommitmentResult.hash c1 = CommitmentResult.hash c2
    /\ CommitmentResult.trace c1 = trace
    /\ CommitmentResult.trace c2 = trace.
Proof.
  intros Ht Ha.
  destruct (commit_effects this trace tr now w elems Ht Ha)
    as (w1 & E1 & Hr1 & Ha1 & Hf1 & Hlen1 & _).
  assert (Ht1 : heap w1 !! trace = Some (CTrace tr)).
  { apply Hf1; [|done]. intros ->. congruence. }
  destruct (commit_effects this trace tr now' w1 _ Ht1 Ha1)
    as (w2 & E2 & Hr2 & Ha2 & Hf2 & _ & _).
  exists (length (heap w)), (length (heap w1)), w2,
    {| CommitmentResult.hash := hashTrace (obj_of_trace tr);
       CommitmentResult.trace := trace;
       CommitmentResult.timestamp := now |},
    {| CommitmentResult.hash := hashTrace (obj_of_trace tr);
       CommitmentResult.trace := trace;
       CommitmentResult.timestamp := now' |}.
  cbn [run perform]. unfold mbind, M_bind. rewrite E1. cbn [mret M_ret].
  rewrite E2. cbn [mret M_ret app].
  split_and!; try done.
  - lia.
  - by rewrite <- app_assoc in Ha2.
  - apply Hf2; [|exact Hr1]. intros E. rewrite E in Hr1. congruence.
Qed.

Lemma commit_twice_appends_twice_witness :
  exists r1 r2 w2 c1 c2,
    run example_shield
      [Commit 1%nat 1700000000001%float; Commit 1%nat 1700000000002%float]
      example_world = Some ([r1; r2], w2)
    /\ r1 <> r2
    /\ heap w2 !! SolprismShield.commitments example_shield
       = Some (CArray ([] ++ [r1; r2]))
    /\ heap w2 !! r1 = Some (CResult c1)
    /\ heap w2 !! r2 = Some (CResult c2)
    /\ CommitmentResult.hash c1 = CommitmentResult.hash c2
    /\ CommitmentResult.trace c1 = 1%nat
    /\ CommitmentResult.trace c2 = 1%nat.
Proof.
  by apply (commit_twice_appends_twice example_shield 1%nat example_trace
              1700000000001%float 1700000000002%float example_world []).
Defined.

Lemma bind_Some {A B : Type} (c : M A) (k : A -> M B) w x w' :
  c w = Some (x, w') -> (c ≫= k) w = k x w'.
Proof. intros E. unfold mbind, M_bind. by rewrite E. Qed.

Lemma assign_trace_spec trace t t' w :
  heap w !! trace = Some (CTrace t) ->
  assign_trace trace t' w
  = Some (tt, {| heap := <[trace := CTrace t']> (heap w); console := console w |}).
Proof.
  intros H. unfold assign_trace, load_trace, load, store, mbind, M_bind.
  rewrite H. cbn [mret M_ret heap console]. by rewrite H.
Qed.

Lemma load_result_at l r w :
  heap w !! l = Some (CResult r) -> load_result l w = Some (r, w).
Proof. intros H. rewrite load_result_spec. unfold result_at. by rewrite H. Qed.

(** X16. A commit keeps the trace by reference, not by value: when the
    caller changes the trace object after the commit, the stored hash is
    checked against the changed object, so the entry still verifies
    exactly when the change leaves the hash as it was. *)
Theorem commit_holds_trace_by_reference (this : SolprismShield.t) (trace : loc)
    (tr changed : ReasoningTrace.t) (now : number) (w : World) (elems : list loc) :
  heap w !! trace = Some (CTrace tr) ->
  heap w !! SolprismShield.commitments this = Some (CArray elems) ->
  exists valid w',
    verify_after_change this trace now changed w = Some (valid, w')
    /\ (valid = true
        <-> hashTrace (obj_of_trace changed) = hashTrace (obj_of_trace tr)).
Proof.
  intros Ht Ha.
  destruct (commit_effects this trace tr now w elems Ht Ha)
    as (w1 & E1 & Hr1 & _ & Hf1 & _ & _).
  assert (Ht1 : heap w1 !! trace = Some (CTrace tr)).
  { apply Hf1; [|done]. intros ->. congruence. }
  assert (Hne : length (heap w) <> trace).
  { intros <-. rewrite Hr1 in Ht1. discriminate. }
  set (w2 := {| heap := <[trace := CTrace changed]> (heap w1); console := console w1 |}).
  assert (Ht2 : heap w2 !! trace = Some (CTrace changed)).
  { cbn. apply list_lookup_insert_eq. by eapply lookup_lt_Some. }
  destruct (verify_spec this (hashTrace (obj_of_trace tr)) trace changed w2 Ht2)
    as [line Hv].
  assert (Hr2 : heap w2 !! length (heap w)
                = Some (CResult {| CommitmentResult.hash := hashTrace (obj_of_trace tr);
                                   CommitmentResult.trace := trace;
                                   CommitmentResult.timestamp := now |})).
  { cbn. by rewrite list_lookup_insert_ne. }
  eexists _, _. split.
  - unfold verify_after_change.
    rewrite (bind_Some _ _ _ _ _ E1).
    rewrite (bind_Some _ _ _ _ _ (assign_trace_spec trace tr changed w1 Ht1)).
    fold w2. rewrite (bind_Some _ _ _ _ _ (load_result_at _ _ w2 Hr2)).
    exact Hv.
  - by rewrite bool_decide_eq_true.
Qed.

Lemma commit_holds_trace_by_reference_witness :
  exists valid w',
    verify_after_change example_shield 1%nat 1700000000001%float
      (with_agent (js "Mallory") example_trace) example_world = Some (valid, w')
    /\ valid = false.
Proof.
  destruct (commit_holds_trace_by_reference example_shield 1%nat example_trace
              (with_agent (js "Mallory") example_trace) 1700000000001%float
              example_world [] eq_refl eq_refl) as (valid & w' & E & Hiff).
  exists valid, w'. split; [exact E|].
  destruct valid; [|reflexivity].
  assert (H : hashTrace (obj_of_trace (with_agent (js "Mallory") example_trace))
              = hashTrace (obj_of_trace example_trace)) by (by apply Hiff).
  by vm_compute in H.
Defined.

(** X17. Every call of [commit], of a convenience method and of [verify]
    writes exactly one line to the console, and [getCommitments] writes
    none: a sequence of calls adds as many lines as it has calls other
    than [getCommitments]. *)
Theorem console_lines_per_call (this : SolprismShield.t) (calls : list call)
    (w : World) (elems : list loc) :
  heap w !! SolprismShield.commitments this = Some (CArray elems) ->
  Forall (call_ok w) calls ->
  exists results w',
    run this calls w = Some (results, w')
    /\ length (console w') = (length (console w) + logs calls)%nat.
Proof.
  intros Ha Hok.
  destruct (run_effects this calls w elems Ha Hok)
    as (results & w' & E & _ & _ & _ & _ & Hl).
  by exists results, w'.
Qed.

Lemma console_lines_per_call_witness :
  exists results w',
    run example_shield [Commit 1%nat 1700000000001%float; GetCommitments;
                        Verify (js "0000") 1%nat] example_world
    = Some (results, w')
    /\ length (console w') = (length (console example_world) + 2)%nat.
Proof.
  apply (console_lines_per_call example_shield
           [Commit 1%nat 1700000000001%float; GetCommitments;
            Verify (js "0000") 1%nat] example_world []).
  - reflexivity.
  - repeat constructor; by exists example_trace.
Defined.

Lemma perform_agentName name name' arr c :
  perform {| SolprismShield.agentName := name; SolprismShield.commitments := arr |} c
  = perform {| SolprismShield.agentName := name'; SolprismShield.commitments := arr |} c.
Proof. by destruct c. Qed.

Lemma run_agentName name name' arr calls :
  run {| SolprismShield.agentName := name; SolprismShield.commitments := arr |} calls
  = run {| SolprismShield.agentName := name'; SolprismShield.commitments := arr |} calls.
Proof.
  induction calls as [|c calls IH]; [done|].
  cbn [run]. by rewrite IH, (perform_agentName name name').
Qed.

(** X18. The agent name a manager is configured with has no effect: the
    same calls on managers made with different configurations return the
    same results and leave the same heap and the same console, and the
    traces of the convenience methods name the agent ["AgentShield"]. *)
Theorem configured_agentName_is_unused (config config' : Config.t)
    (calls : list call) (w0 : World) :
  (this ← SolprismShield.new config; run this calls) w0
  = (this ← SolprismShield.new config'; run this calls) w0
  /\ (forall clock d,
        ReasoningTrace.agent (createTradeReasoningTrace clock d) = js "AgentShield")
  /\ (forall clock p,
        ReasoningTrace.agent (createFirewallTrace clock p) = js "AgentShield").
Proof.
  split; [|by split].
  rewrite (bind_Some _ _ _ _ _ (new_spec config w0)).
  rewrite (bind_Some _ _ _ _ _ (new_spec config' w0)).
  by rewrite (run_agentName _ (match Config.agentName config' with
                               | Some (u :: s) => u :: s
                               | _ => js "AgentShield"
                               end)).
Qed.

(** X19. Every [getCommitments()] makes an array of its own: two calls in a
    row return two different arrays with the elements of the history, and
    they change no object that existed and write nothing to the console. *)
Theorem getCommitments_makes_new_arrays (this : SolprismShield.t) (w : World)
    (elems : list loc) :
  heap w !! SolprismShield.commitments this = Some (CArray elems) ->
  exists s1 w1 s2 w2,
    SolprismShield.getCommitments this w = Some (s1, w1)
    /\ SolprismShield.getCommitments this w1 = Some (s2, w2)
    /\ s1 <> s2
    /\ heap w !! s1 = None
    /\ heap w2 !! s1 = Some (CArray elems)
    /\ heap w2 !! s2 = Some (CArray elems)
    /\ (forall l c, heap w !! l = Some c -> heap w2 !! l = Some c)
    /\ console w2 = console w.
Proof.
  intros Ha.
  set (w1 := {| heap := heap w ++ [CArray elems]; console := console w |}).
  assert (Ha1 : heap w1 !! SolprismShield.commitments this = Some (CArray elems)).
  { cbn. by apply lookup_app_l_Some. }
  exists (length (heap w)), w1, (length (heap w1)),
    {| heap := heap w1 ++ [CArray elems]; console := console w1 |}.
  split; [by apply getCommitments_spec|]. split; [by apply getCommitments_spec|].
  cbn [heap console w1]. split_and!.
  - rewrite length_app. simpl. lia.
  - by apply lookup_ge_None_2.
  - apply lookup_app_l_Some. by rewrite lookup_app_r, Nat.sub_diag.
  - by rewrite lookup_app_r, Nat.sub_diag.
  - intros l c Hl. by do 2 apply lookup_app_l_Some.
  - done.
Qed.

Lemma getCommitments_makes_new_arrays_witness :
  exists s1 w1 s2 w2,
    SolprismShield.getCommitments example_shield committed_world = Some (s1, w1)
    /\ SolprismShield.getCommitments example_shield w1 = Some (s2, w2)
    /\ s1 <> s2
    /\ heap committed_world !! s1 = None
    /\ heap w2 !! s1 = Some (CArray [2%nat])
    /\ heap w2 !! s2 = Some (CArray [2%nat])
    /\ (forall l c, heap committed_world !! l = Some c -> heap w2 !! l = Some c)
    /\ console w2 = console committed_world.
Proof.
  apply (getCommitments_makes_new_arrays example_shield committed_world [2%nat]).
  reflexivity.
Defined.

(** X20. The convenience methods build the trace, keep it in a new object
    of its own and commit that object: the CommitmentResult returned
    refers to a trace object that did not exist before, which holds the
    trace of the builder, and its hash is the hash of that trace. *)
Theorem convenience_methods_commit_built_trace (this : SolprismShield.t)
    (d : TradeDecision.t) (p : FirewallParams.t) (clock : Clock) (now : number)
    (w : World) (elems : list loc) :
  heap w !! SolprismShield.commitments this = Some (CArray elems) ->
  (exists result w' r,
     SolprismShield.commitTradeDecision this d clock now w = Some (result, w')
     /\ heap w' !! result = Some (CResult r)
     /\ heap w !! CommitmentResult.trace r = None
     /\ heap w' !! CommitmentResult.trace r
        = Some (CTrace (createTradeReasoningTrace clock d))
     /\ CommitmentResult.hash r
        = hashTrace (obj_of_trace (createTradeReasoningTrace clock d))
     /\ CommitmentResult.timestamp r = now
     /\ heap w' !! SolprismShield.commitments this = Some (CArray (elems ++ [result])))
  /\ (exists result w' r,
        SolprismShield.commitFirewallDecision this p clock now w = Some (result, w')
        /\ heap w' !! result = Some (CResult r)
        /\ heap w !! CommitmentResult.trace r = None
        /\ heap w' !! CommitmentResult.trace r
           = Some (CTrace (createFirewallTrace clock p))
        /\ CommitmentResult.hash r
           = hashTrace (obj_of_trace (createFirewallTrace clock p))
        /\ CommitmentResult.timestamp r = now
        /\ heap w' !! SolprismShield.commitments this
           = Some (CArray (elems ++ [result]))).
Proof.
  intros Ha.
  assert (Hfresh : forall t,
    exists result w' r,
      (trace ← alloc (CTrace t); SolprismShield.commit this trace now) w
      = Some (result, w')
      /\ heap w' !! result = Some (CResult r)
      /\ heap w !! CommitmentResult.trace r = None
      /\ heap w' !! CommitmentResult.trace r = Some (CTrace t)
      /\ CommitmentResult.hash r = hashTrace (obj_of_trace t)
      /\ CommitmentResult.timestamp r = now
      /\ heap w' !! SolprismShield.commitments this = Some (CArray (elems ++ [result]))).
  { intros t. unfold mbind at 1, M_bind at 1, alloc at 1.
    set (w1 := {| heap := heap w ++ [CTrace t]; console := console w |}).
    assert (Ht1 : heap w1 !! length (heap w) = Some (CTrace t)).
    { cbn. by rewrite lookup_app_r, Nat.sub_diag. }
    assert (Ha1 : heap w1 !! SolprismShield.commitments this = Some (CArray elems)).
    { cbn. by apply lookup_app_l_Some. }
    destruct (commit_effects this (length (heap w)) t now w1 elems Ht1 Ha1)
      as (w' & E & Hr & Ha' & Hf & _ & _).
    eexists _, w', _. split; [exact E|]. split; [exact Hr|].
    cbn [CommitmentResult.trace CommitmentResult.hash CommitmentResult.timestamp].
    split_and!; try done.
    - by apply lookup_ge_None_2.
    - apply Hf; [|done]. intros E'. rewrite E' in Ht1. congruence. }
  split; [apply (Hfresh (createTradeReasoningTrace clock d))
         | apply (Hfresh (createFirewallTrace clock p))].
Qed.

Lemma convenience_methods_commit_built_trace_witness :
  exists result w' r,
    SolprismShield.commitTradeDecision example_shield example_decision example_clock
      1700000000001%float example_world = Some (result, w')
    /\ heap w' !! result = Some (CResult r)
    /\ heap example_world !! CommitmentResult.trace r = None
    /\ heap w' !! CommitmentResult.trace r
       = Some (CTrace (createTradeReasoningTrace example_clock example_decision))
    /\ CommitmentResult.hash r
       = hashTrace (obj_of_trace
                      (createTradeReasoningTrace example_clock example_decision))
    /\ CommitmentResult.timestamp r = 1700000000001%float
    /\ heap w' !! SolprismShield.commitments example_shield
       = Some (CArray ([] ++ [result])).
Proof.
  apply (convenience_methods_commit_built_trace example_shield example_decision
           (example_params true) example_clock 1700000000001%float example_world []).
  reflexivity.
Defined.

(** X21. Timestamps that are not finite are all written [null]: two traces
    with the same version and agent, both with or both without metadata,
    whose timestamps are NaN or infinite have the same hash. *)
Theorem nonfinite_timestamps_hash_alike (t1 t2 : ReasoningTrace.t) :
  ReasoningTrace.version t1 = ReasoningTrace.version t2 ->
  ReasoningTrace.agent t1 = ReasoningTrace.agent t2 ->
  PrimFloat.is_finite (ReasoningTrace.timestamp t1) = false ->
  PrimFloat.is_finite (ReasoningTrace.timestamp t2) = false ->
  (is_Some (ReasoningTrace.metadata t1) <-> is_Some (ReasoningTrace.metadata t2)) ->
  hashTrace (obj_of_trace t1) = hashTrace (obj_of_trace t2).
Proof.
  intros Hv Ha H1 H2 Hm. rewrite !hashTrace_top_level.
  replace (top_level t2) with (top_level t1); [done|].
  unfold top_level. rewrite Hv, Ha, H1, H2. f_equal.
  destruct (ReasoningTrace.metadata t1), (ReasoningTrace.metadata t2); try done.
  - destruct Hm as [Hm _]. by destruct Hm as [? ?].
  - destruct Hm as [_ Hm]. by destruct Hm as [? ?].
Qed.

Lemma nonfinite_timestamps_hash_alike_witness :
  hashTrace (obj_of_trace
               (createFirewallTrace
                  {| Date_now := PrimFloat.nan; Date_toISOString := fun _ => [] |}
                  (example_params true)))
  = hashTrace (obj_of_trace
                 (createFirewallTrace
                    {| Date_now := PrimFloat.infinity;
                       Date_toISOString := fun _ => [] |}
                    (example_params false))).
Proof.
  refine (nonfinite_timestamps_hash_alike _ _ _ _ _ _ _).
  - by vm_compute.
  - by vm_compute.
  - by vm_compute.
  - by vm_compute.
  - vm_compute. split; intros H; exact H.
Defined.
